(** * BufferedFileWriter: a write buffer in front of an embedded file system

    Shallow embedding of [BufferedFileWriter.h] / [BufferedFileWriter.cpp]
    and the properties of its buffering, flushing and byte accounting.

    The writer object is a record with the fields of the C++ class.  The
    file system ([FS.h]), the debug pin ([debugIO.h]) and the width of
    [size_t] are not part of the repository: they are the fields of the
    class [Platform], and every result holds for all of them.  Calls that
    leave the program are recorded, in order, in a trace. *)

From Stdlib Require Import ZArith Lia.
From Stdlib.Strings Require Import Byte.
From stdpp Require Import base list.

Set Default Proof Using "Type*".

(** ** Constants of the header *)

(** [uint32_t]: status codes are numbers in [0, 2^32). *)
Definition uint32 := Z.

(** [enum WriteResult { WriteNoFile = UINT32_MAX }]. *)
Definition WriteNoFile : uint32 := 4294967295%Z.

(** [static const size_t BufferSize = 4096;] *)
Definition BufferSize : nat := 4096.
Arguments BufferSize : simpl never.

(** [static const size_t LineBuffSize = 2048;] *)
Definition LineBuffSize : nat := 2048.
Arguments LineBuffSize : simpl never.

(** [writeEndPtr = buff + sizeof(buff)], assigned once by the constructor
    and [const] afterwards; as an offset from [buff] it is [BufferSize]. *)
Definition writeEndPtr : nat := BufferSize.

(** ** The platform: [size_t] and the file system *)

Class Platform := {
  (** largest value of [size_t] *)
  SIZE_MAX : Z;
  (** the object a [FS_FILE *] points to; a null pointer is [None] *)
  FS_FILE : Type;
  (** whatever the file system keeps between calls *)
  fs_state : Type;
  (** [FS_FWrite(pData, Size, N, pFile)]: the bytes at [pData], the item
      size, the item count and the file; gives the status code *)
  FS_FWrite : list byte → nat → nat → FS_FILE → fs_state → uint32 * fs_state;
}.

(** Conversion of an integer to [size_t]. *)
Definition to_size_t `{Platform} (z : Z) : Z := (z mod (SIZE_MAX + 1))%Z.
Arguments to_size_t : simpl never.

(** ** Outcomes of code that can leave defined behaviour *)

Inductive outcome (A : Type) : Type :=
| Ok (a : A)
| Undefined.
Arguments Ok {A} a.
Arguments Undefined {A}.

Section Writer.
Context `{Platform}.

(** ** What the writer does to the outside *)

Inductive event : Type :=
| EvDebug4 (on : bool)
| EvFWrite (pData : list byte) (Size N : nat) (pFile : FS_FILE).

Record world : Type := {
  fs : fs_state;
  trace : list event;
}.

(** The underlying writes of a trace: file and bytes handed over. *)
Fixpoint underlying_writes (t : list event) : list (FS_FILE * list byte) :=
  match t with
  | [] => []
  | EvFWrite d _ _ f :: t' => (f, d) :: underlying_writes t'
  | EvDebug4 _ :: t' => underlying_writes t'
  end.

(** ** The object *)

Record BufferedFileWriter : Type := {
  (** [char buff[BufferSize]] *)
  buff : list byte;
  (** [char lineBuff[LineBuffSize + 1]] *)
  lineBuff : list byte;
  (** [FS_FILE * file] *)
  file : option FS_FILE;
  (** [char * writePtr], as the offset [writePtr - buff] *)
  writePtr : nat;
  (** [size_t bytesWrittenTotal] *)
  bytesWrittenTotal : Z;
}.

Definition set_file (f : option FS_FILE) (w : BufferedFileWriter) :=
  {| buff := buff w; lineBuff := lineBuff w; file := f;
     writePtr := writePtr w; bytesWrittenTotal := bytesWrittenTotal w |}.

Definition set_writePtr (p : nat) (w : BufferedFileWriter) :=
  {| buff := buff w; lineBuff := lineBuff w; file := file w;
     writePtr := p; bytesWrittenTotal := bytesWrittenTotal w |}.

Definition set_bytesWrittenTotal (n : Z) (w : BufferedFileWriter) :=
  {| buff := buff w; lineBuff := lineBuff w; file := file w;
     writePtr := writePtr w; bytesWrittenTotal := n |}.

Definition set_lineBuff (l : list byte) (w : BufferedFileWriter) :=
  {| buff := buff w; lineBuff := l; file := file w;
     writePtr := writePtr w; bytesWrittenTotal := bytesWrittenTotal w |}.

(** One round of the loop of [write] before its test:
    [*writePtr++ = *source++; ++bytesWrittenTotal;] on an in-range
    [writePtr]. *)
Definition append_byte (c : byte) (w : BufferedFileWriter) :=
  {| buff := <[writePtr w := c]> (buff w); lineBuff := lineBuff w;
     file := file w; writePtr := S (writePtr w);
     bytesWrittenTotal := to_size_t (bytesWrittenTotal w + 1) |}.

(** ** The member functions *)

(** [void clear()]: [writePtr = buff]. *)
Definition clear (w : BufferedFileWriter) : BufferedFileWriter :=
  set_writePtr 0 w.

(** The constructor, run on the storage of the object: the two arrays keep
    whatever bytes the storage held. *)
Definition BufferedFileWriter_ctor (buff0 lineBuff0 : list byte)
  : BufferedFileWriter :=
  clear {| buff := buff0; lineBuff := lineBuff0; file := None;
           writePtr := 0; bytesWrittenTotal := 0 |}.

(** [void setFile(FS_FILE *_file)]. *)
Definition setFile (_file : option FS_FILE) (w : BufferedFileWriter)
  : BufferedFileWriter :=
  clear (set_file _file w).

(** [size_t bufferCount()]. *)
Definition bufferCount (w : BufferedFileWriter) : nat := writePtr w.

(** [void resetBytesWrittenTotal()]. *)
Definition resetBytesWrittenTotal (w : BufferedFileWriter)
  : BufferedFileWriter :=
  set_bytesWrittenTotal 0 w.

(** [size_t getBytesWrittenTotal()]. *)
Definition getBytesWrittenTotal (w : BufferedFileWriter) : Z :=
  bytesWrittenTotal w.

(** [uint32_t flush()]. *)
Definition flush (w : BufferedFileWriter) (env : world)
  : uint32 * BufferedFileWriter * world :=
  match file w with
  | None => (WriteNoFile, w, env)
  | Some f =>
      if 0 <? writePtr w then
        let data := take (writePtr w) (buff w) in
        let '(retval, fs') := FS_FWrite data (writePtr w) 1 f (fs env) in
        (retval, set_writePtr 0 w,
         {| fs := fs';
            trace := trace env ++
              [EvDebug4 true; EvFWrite data (writePtr w) 1 f; EvDebug4 false] |})
      else (0%Z, w, env)
  end.

(** The loop of [write]: [source] holds the bytes readable at the pointer,
    reading or storing out of range is undefined. *)
Fixpoint write_loop (source : list byte) (nChars : nat) (retval : uint32)
    (w : BufferedFileWriter) (env : world)
  : outcome (uint32 * BufferedFileWriter * world) :=
  match nChars with
  | O => Ok (retval, w, env)
  | S nChars' =>
      match source with
      | [] => Undefined
      | c :: source' =>
          if writePtr w <? length (buff w) then
            let w1 := append_byte c w in
            if writeEndPtr <=? writePtr w1 then
              let '(retval', w2, env2) := flush w1 env in
              write_loop source' nChars' retval' w2 env2
            else write_loop source' nChars' retval w1 env
          else Undefined
      end
  end.

(** [uint32_t write(const char *source, size_t nChars)]. *)
Definition write (source : list byte) (nChars : nat)
    (w : BufferedFileWriter) (env : world)
  : outcome (uint32 * BufferedFileWriter * world) :=
  match file w with
  | None => Ok (WriteNoFile, w, env)
  | Some _ => write_loop source nChars 0%Z w env
  end.

(** [strlen]: the bytes before the first NUL; none in the readable bytes
    means the scan runs past them. *)
Fixpoint strlen (s : list byte) : option nat :=
  match s with
  | [] => None
  | c :: s' => if Byte.eqb c x00 then Some 0 else S <$> strlen s'
  end.

(** [uint32_t writeStr(const char *string)]; a null pointer is [None]. *)
Definition writeStr (string : option (list byte))
    (w : BufferedFileWriter) (env : world)
  : outcome (uint32 * BufferedFileWriter * world) :=
  match string with
  | None => Ok (0%Z, w, env)
  | Some s =>
      match strlen s with
      | None => Undefined
      | Some n => write s n w env
      end
  end.

(** The destructor: a last [flush] when a file is attached. *)
Definition BufferedFileWriter_dtor (w : BufferedFileWriter) (env : world)
  : BufferedFileWriter * world :=
  match file w with
  | None => (w, env)
  | Some _ => let '(_, w1, env1) := flush w env in (set_file None w1, env1)
  end.

(** What formatting [fmt] with its arguments comes to: a text, or a
    failure, which [vsnprintf] reports with the negative result [- code]
    after it has stored the bytes [stored] at the start of the
    destination. *)
Inductive formatted : Type :=
| Text (rendered : list byte)
| FormatError (code : positive) (stored : list byte).

(** [vsnprintf(dst, n, fmt, vl)] with [n > 0].  Of a text at most [n - 1]
    bytes are stored, then a NUL, and the result is the length of the
    whole text (taken to fit an [int]).  A failure gives its negative
    result; the destination keeps its size in both cases. *)
Definition vsnprintf (dst : list byte) (n : nat) (out : formatted)
  : list byte * Z :=
  match out with
  | Text rendered =>
      let kept := take (n - 1) rendered in
      (kept ++ x00 :: drop (S (length kept)) dst, Z.of_nat (length rendered))
  | FormatError code stored =>
      (take (length dst) stored ++ drop (length stored) dst, Z.neg code)
  end.

(** The statements of [logPrintf] up to its closing brace: [vsnprintf]
    into [lineBuff], then [write(lineBuff, nChars)] with the [int] result
    converted to [size_t] and the status of [write] dropped.  A null [fmt]
    is [None] and goes to [vsnprintf] as it is; any other format is given
    by what its formatting comes to.  The result is the state in which the
    closing brace is reached. *)
Definition logPrintf_body (fmt : option formatted)
    (w : BufferedFileWriter) (env : world)
  : outcome (BufferedFileWriter * world) :=
  match fmt with
  | None => Undefined
  | Some out =>
      let '(line, nChars) := vsnprintf (lineBuff w) LineBuffSize out in
      let w1 := set_lineBuff line w in
      match write line (Z.to_nat (to_size_t nChars)) w1 env with
      | Ok (_, w2, env2) => Ok (w2, env2)
      | Undefined => Undefined
      end
  end.

(** [bool logPrintf(const char *fmt, ...)].  The body has no [return]
    statement: when its last statement is done, control flows off the end
    of a function that returns [bool], which is undefined behaviour.  No
    call has a defined result. *)
Definition logPrintf (fmt : option formatted)
    (w : BufferedFileWriter) (env : world)
  : outcome (bool * BufferedFileWriter * world) :=
  match logPrintf_body fmt w env with
  | Ok _ => Undefined
  | Undefined => Undefined
  end.

(** ** Derived notions used by the statements *)

(** The bytes held unflushed: [buff[0 .. writePtr)]. *)
Definition buffered (w : BufferedFileWriter) : list byte :=
  take (writePtr w) (buff w).

(** The object is laid out as declared, its buffer is not full and its
    counter is a [size_t]. *)
Record wf (w : BufferedFileWriter) : Prop := {
  wf_buff : length (buff w) = BufferSize;
  wf_writePtr : writePtr w < BufferSize;
  wf_total : (0 ≤ bytesWrittenTotal w ≤ SIZE_MAX)%Z;
}.

(** The invariant of the buffer: the array has its declared size and the
    write position is inside it. *)
Definition buffer_inv (w : BufferedFileWriter) : Prop :=
  length (buff w) = BufferSize ∧ writePtr w < BufferSize.

(** [src] appended byte by byte with no flush in between. *)
Fixpoint append_bytes (src : list byte) (w : BufferedFileWriter)
  : BufferedFileWriter :=
  match src with
  | [] => w
  | c :: src' => append_bytes src' (append_byte c w)
  end.

(** A run of [write] calls, one per element of [srcs] and each with the
    length of its element; the status codes come back in call order. *)
Fixpoint write_all (srcs : list (list byte))
    (w : BufferedFileWriter) (env : world)
  : outcome (list uint32 * BufferedFileWriter * world) :=
  match srcs with
  | [] => Ok ([], w, env)
  | src :: srcs' =>
      match write src (length src) w env with
      | Ok (r, w1, env1) =>
          match write_all srcs' w1 env1 with
          | Ok (rs, w2, env2) => Ok (r :: rs, w2, env2)
          | Undefined => Undefined
          end
      | Undefined => Undefined
      end
  end.

(** The public operations, as data: a client program is a list of them. *)
Inductive op : Type :=
| OpSetFile (_file : option FS_FILE)
| OpClear
| OpResetBytesWrittenTotal
| OpFlush
| OpWrite (source : list byte)
| OpWriteStr (string : option (list byte)).

(** The call is legal C++: a string argument is null or NUL-terminated
    ([OpWrite] passes the length of its bytes). *)
Definition op_defined (o : op) : Prop :=
  match o with
  | OpWriteStr (Some s) => is_Some (strlen s)
  | _ => True
  end.

(** The number of bytes the call passes to the writer. *)
Definition op_bytes (o : op) : nat :=
  match o with
  | OpWrite source => length source
  | OpWriteStr (Some s) => default 0 (strlen s)
  | _ => 0
  end.

(** The operations that write or flush, leaving file and counter to the
    writer itself. *)
Definition op_writes (o : op) : Prop :=
  match o with
  | OpFlush | OpWrite _ | OpWriteStr _ => True
  | _ => False
  end.

Definition run_op (o : op) (w : BufferedFileWriter) (env : world)
  : outcome (BufferedFileWriter * world) :=
  match o with
  | OpSetFile f => Ok (setFile f w, env)
  | OpClear => Ok (clear w, env)
  | OpResetBytesWrittenTotal => Ok (resetBytesWrittenTotal w, env)
  | OpFlush => let '(_, w', env') := flush w env in Ok (w', env')
  | OpWrite source =>
      match write source (length source) w env with
      | Ok (_, w', env') => Ok (w', env')
      | Undefined => Undefined
      end
  | OpWriteStr string =>
      match writeStr string w env with
      | Ok (_, w', env') => Ok (w', env')
      | Undefined => Undefined
      end
  end.

Fixpoint run_ops (ops : list op) (w : BufferedFileWriter) (env : world)
  : outcome (BufferedFileWriter * world) :=
  match ops with
  | [] => Ok (w, env)
  | o :: ops' =>
      match run_op o w env with
      | Ok (w', env') => run_ops ops' w' env'
      | Undefined => Undefined
      end
  end.

(** The bytes a call passes to the writer: for a string, those before its
    first NUL. *)
Definition op_data (o : op) : list byte :=
  match o with
  | OpWrite source => source
  | OpWriteStr (Some s) => take (default 0 (strlen s)) s
  | _ => []
  end.

(** The operations after which a file is attached and the byte count is
    the writer's own: all but detaching and resetting the count. *)
Definition op_keeps_file (o : op) : Prop :=
  match o with
  | OpSetFile None | OpResetBytesWrittenTotal => False
  | _ => True
  end.

(** What one underlying write of the bytes [d] to [f] leaves in the trace:
    the debug pin goes up, the bytes go out as one item of their length,
    the pin goes down. *)
Definition flush_events (f : FS_FILE) (d : list byte) : list event :=
  [EvDebug4 true; EvFWrite d (length d) 1 f; EvDebug4 false].

(** The level of the debug pin after the events [t], from the level [pin]
    before them: that of the last [setDebug4] call. *)
Fixpoint debug4_after (t : list event) (pin : bool) : bool :=
  match t with
  | [] => pin
  | EvDebug4 on :: t' => debug4_after t' on
  | EvFWrite _ _ _ _ :: t' => debug4_after t' pin
  end.

(** The level of the pin at the end of a trace that began with the pin
    low. *)
Definition debug4_state (t : list event) : bool := debug4_after t false.

(** The file system alone: the blocks [chunks] written to [f] one after
    the other, each as one item, from the state [st]; the result is the
    status of the last block, or [r] when there is none. *)
Fixpoint send_chunks (f : FS_FILE) (chunks : list (list byte))
    (r : uint32) (st : fs_state) : uint32 * fs_state :=
  match chunks with
  | [] => (r, st)
  | d :: chunks' =>
      let '(r', st') := FS_FWrite d (length d) 1 f st in
      send_chunks f chunks' r' st'
  end.

End Writer.

(** ** Concrete platforms

    A 32-bit [size_t], one file, and a file system without state that
    answers every call with the same code: with [1], one item written, it
    accepts every write; with [0], none written, it refuses them all. *)

Definition constant_platform (code : uint32) : Platform :=
  {| SIZE_MAX := 4294967295%Z; FS_FILE := unit; fs_state := unit;
     FS_FWrite := λ _ _ _ _ st, (code, st) |}.

(** A writer constructed on zeroed storage. *)
Definition fresh_writer (code : uint32)
  : @BufferedFileWriter (constant_platform code) :=
  @BufferedFileWriter_ctor (constant_platform code)
    (replicate BufferSize x00) (replicate (S LineBuffSize) x00).

(** The fresh writer with the one file of the platform attached. *)
Definition attached_writer (code : uint32)
  : @BufferedFileWriter (constant_platform code) :=
  @setFile (constant_platform code) (Some tt) (fresh_writer code).

(** The world before any call. *)
Definition empty_world (code : uint32) : @world (constant_platform code) :=
  @Build_world (constant_platform code) tt [].

(** A platform on which [size_t] has 16 bits, the least the C standard
    allows, with one file and a file system that accepts every write. *)
Definition narrow_platform : Platform :=
  {| SIZE_MAX := 65535%Z; FS_FILE := unit; fs_state := unit;
     FS_FWrite := λ _ _ _ _ st, (1%Z, st) |}.

(** A writer on that platform, constructed on zeroed storage, with the
    file attached. *)
Definition narrow_writer : @BufferedFileWriter narrow_platform :=
  @setFile narrow_platform (Some tt)
    (@BufferedFileWriter_ctor narrow_platform
       (replicate BufferSize x00) (replicate (S LineBuffSize) x00)).

Definition narrow_world : @world narrow_platform :=
  @Build_world narrow_platform tt [].

Arguments constant_platform code%_Z.
Arguments fresh_writer code%_Z.
Arguments attached_writer code%_Z.
Arguments empty_world code%_Z.

(** ** Basic facts *)

Section WriterFacts.
Context `{Platform}.


Lemma BufferSize_pos : 0 < BufferSize.
Proof. unfold BufferSize. lia. Qed.

Lemma underlying_writes_app (t1 t2 : list event) :
  underlying_writes (t1 ++ t2) = underlying_writes t1 ++ underlying_writes t2.
Proof.
  induction t1 as [|[on|d sz n f] t1 IH]; simpl; [done|done|].
  by rewrite IH.
Qed.

Lemma to_size_t_succ (t n : Z) :
  to_size_t (to_size_t (t + 1) + n) = to_size_t (t + (1 + n)).
Proof.
  unfold to_size_t. rewrite Zplus_mod_idemp_l. f_equal. lia.
Qed.

Lemma to_size_t_small (t : Z) : (0 ≤ t ≤ SIZE_MAX)%Z → to_size_t t = t.
Proof. intros Ht. unfold to_size_t. apply Z.mod_small. lia. Qed.

Lemma to_size_t_range (t : Z) :
  (0 ≤ SIZE_MAX)%Z → (0 ≤ to_size_t t ≤ SIZE_MAX)%Z.
Proof.
  intros Hm. unfold to_size_t.
  pose proof (Z.mod_pos_bound t (SIZE_MAX + 1)). lia.
Qed.

(** *** [append_bytes] *)

Lemma append_bytes_file src w : file (append_bytes src w) = file w.
Proof.
  revert w. induction src as [|c src IH]; intros w; [done|].
  simpl. by rewrite IH.
Qed.

Lemma append_bytes_lineBuff src w :
  lineBuff (append_bytes src w) = lineBuff w.
Proof.
  revert w. induction src as [|c src IH]; intros w; [done|].
  simpl. by rewrite IH.
Qed.

Lemma append_bytes_writePtr src w :
  writePtr (append_bytes src w) = writePtr w + length src.
Proof.
  revert w. induction src as [|c src IH]; intros w; simpl; [lia|].
  rewrite IH. simpl. lia.
Qed.

Lemma append_bytes_length_buff src w :
  length (buff (append_bytes src w)) = length (buff w).
Proof.
  revert w. induction src as [|c src IH]; intros w; [done|].
  simpl. rewrite IH. simpl. apply length_insert.
Qed.

Lemma append_byte_buffered c w :
  writePtr w < length (buff w) →
  buffered (append_byte c w) = buffered w ++ [c].
Proof.
  intros Hlt. unfold buffered. simpl.
  rewrite (take_S_r _ _ c) by (by apply list_lookup_insert_eq).
  by rewrite take_insert_ge.
Qed.

Lemma append_bytes_buffered src w :
  writePtr w + length src ≤ length (buff w) →
  buffered (append_bytes src w) = buffered w ++ src.
Proof.
  revert w. induction src as [|c src IH]; intros w Hle.
  - by rewrite app_nil_r.
  - simpl in Hle. simpl. rewrite IH.
    + rewrite append_byte_buffered by lia. by rewrite <- app_assoc.
    + simpl. rewrite length_insert. lia.
Qed.

Lemma append_bytes_total_mod src w :
  to_size_t (bytesWrittenTotal (append_bytes src w)) =
  to_size_t (bytesWrittenTotal w + Z.of_nat (length src)).
Proof.
  revert w. induction src as [|c src IH]; intros w.
  - simpl. f_equal. lia.
  - simpl append_bytes. rewrite IH. simpl bytesWrittenTotal.
    rewrite to_size_t_succ. f_equal. simpl length. lia.
Qed.

Lemma append_bytes_total src w :
  (0 ≤ bytesWrittenTotal w ≤ SIZE_MAX)%Z →
  bytesWrittenTotal (append_bytes src w) =
  to_size_t (bytesWrittenTotal w + Z.of_nat (length src)).
Proof.
  intros Ht. rewrite <- append_bytes_total_mod.
  destruct src as [|c src].
  - simpl. by rewrite to_size_t_small.
  - symmetry. apply to_size_t_small.
    revert w Ht c. induction src as [|c' src IH]; intros w Ht c.
    + simpl. apply to_size_t_range. lia.
    + apply (IH (append_byte c w)). simpl. apply to_size_t_range. lia.
Qed.

(** *** [flush] *)

Lemma flush_no_file w env :
  file w = None → flush w env = (WriteNoFile, w, env).
Proof. intros Hf. unfold flush. by rewrite Hf. Qed.

Lemma flush_empty w env f :
  file w = Some f → writePtr w = 0 → flush w env = (0%Z, w, env).
Proof. intros Hf Hp. unfold flush. by rewrite Hf, Hp. Qed.

Lemma flush_pending w env f :
  file w = Some f → 0 < writePtr w →
  flush w env =
  ((FS_FWrite (buffered w) (writePtr w) 1 f (fs env)).1,
   clear w,
   {| fs := (FS_FWrite (buffered w) (writePtr w) 1 f (fs env)).2;
      trace := trace env ++
        [EvDebug4 true; EvFWrite (buffered w) (writePtr w) 1 f;
         EvDebug4 false] |}).
Proof.
  intros Hf Hp. unfold flush. rewrite Hf.
  destruct (Nat.ltb_spec 0 (writePtr w)) as [_|?]; [|lia].
  fold (buffered w). by destruct (FS_FWrite _ _ _ _ _).
Qed.

(** *** The loop of [write] *)

Lemma write_loop_cons c src n r w env :
  write_loop (c :: src) (S n) r w env =
  if writePtr w <? length (buff w) then
    if writeEndPtr <=? S (writePtr w) then
      let '(r', w2, env2) := flush (append_byte c w) env in
      write_loop src n r' w2 env2
    else write_loop src n r (append_byte c w) env
  else Undefined.
Proof. reflexivity. Qed.

(** A byte that does not fill the buffer is appended and nothing else
    happens. *)
Lemma write_loop_step_room c src n r w env :
  length (buff w) = BufferSize → S (writePtr w) < BufferSize →
  write_loop (c :: src) (S n) r w env =
  write_loop src n r (append_byte c w) env.
Proof.
  intros Hb Hp. rewrite write_loop_cons.
  destruct (Nat.ltb_spec (writePtr w) (length (buff w))); [|lia].
  destruct (Nat.leb_spec writeEndPtr (S (writePtr w))) as [Hle|_]; [|done].
  unfold writeEndPtr in Hle. lia.
Qed.

(** The byte that fills the buffer is appended and the buffer is flushed. *)
Lemma write_loop_step_full c src n r w env :
  length (buff w) = BufferSize → S (writePtr w) = BufferSize →
  write_loop (c :: src) (S n) r w env =
  write_loop src n (flush (append_byte c w) env).1.1
    (flush (append_byte c w) env).1.2 (flush (append_byte c w) env).2.
Proof.
  intros Hb Hp. rewrite write_loop_cons.
  destruct (Nat.ltb_spec (writePtr w) (length (buff w))); [|lia].
  destruct (Nat.leb_spec writeEndPtr (S (writePtr w))) as [_|Hlt].
  - by destruct (flush (append_byte c w) env) as [[r' w2] env2].
  - unfold writeEndPtr in Hlt. lia.
Qed.

Lemma write_loop_fits src r w env :
  length (buff w) = BufferSize → writePtr w + length src < BufferSize →
  write_loop src (length src) r w env = Ok (r, append_bytes src w, env).
Proof.
  revert w. induction src as [|c src IH]; intros w Hb Hp; [done|].
  simpl in Hp. simpl length. rewrite write_loop_step_room by lia.
  rewrite IH; [done| |]; simpl.
  - by rewrite length_insert.
  - lia.
Qed.

Lemma write_loop_fill src r w env :
  length (buff w) = BufferSize → src ≠ [] →
  writePtr w + length src = BufferSize →
  write_loop src (length src) r w env = Ok (flush (append_bytes src w) env).
Proof.
  revert w. induction src as [|c src IH]; intros w Hb Hne Hp; [done|].
  simpl in Hp. simpl length. destruct src as [|c' src].
  - rewrite write_loop_step_full by (simpl in Hp; lia). simpl.
    by destruct (flush (append_byte c w) env) as [[r' w2] env2].
  - rewrite write_loop_step_room by (simpl in Hp; lia).
    apply (IH (append_byte c w)); [|done|]; simpl.
    + by rewrite length_insert.
    + simpl in Hp. lia.
Qed.

Lemma write_loop_app s1 s2 r w env :
  write_loop (s1 ++ s2) (length s1 + length s2) r w env =
  match write_loop s1 (length s1) r w env with
  | Ok (r', w', env') => write_loop s2 (length s2) r' w' env'
  | Undefined => Undefined
  end.
Proof.
  revert r w env. induction s1 as [|c s1 IH]; intros r w env; [done|].
  change (write_loop ((c :: s1) ++ s2) (length (c :: s1) + length s2) r w env)
    with (write_loop (c :: (s1 ++ s2)) (S (length s1 + length s2)) r w env).
  simpl length. rewrite !write_loop_cons.
  destruct (writePtr w <? length (buff w)); [|done].
  destruct (writeEndPtr <=? S (writePtr w)); [|apply IH].
  destruct (flush (append_byte c w) env) as [[r' w2] env2]. apply IH.
Qed.

Lemma length_buffered w :
  writePtr w ≤ length (buff w) → length (buffered w) = writePtr w.
Proof. intros Hle. unfold buffered. by rewrite length_take_le. Qed.

(** What one call of the loop does, whatever the file system answers: the
    call ends, whole buffers go to the attached file, and no byte is lost
    or reordered between the file system and the buffer. *)
Lemma write_loop_spec src r w env f :
  file w = Some f → length (buff w) = BufferSize →
  writePtr w < BufferSize →
  ∃ r' w' env' chunks,
    write_loop src (length src) r w env = Ok (r', w', env') ∧
    file w' = Some f ∧ lineBuff w' = lineBuff w ∧
    length (buff w') = BufferSize ∧
    writePtr w' = (writePtr w + length src) mod BufferSize ∧
    to_size_t (bytesWrittenTotal w') =
      to_size_t (bytesWrittenTotal w + Z.of_nat (length src)) ∧
    ((0 ≤ bytesWrittenTotal w ≤ SIZE_MAX)%Z →
     (0 ≤ bytesWrittenTotal w' ≤ SIZE_MAX)%Z) ∧
    underlying_writes (trace env') =
      underlying_writes (trace env) ++ ((λ d, (f, d)) <$> chunks) ∧
    Forall (λ d, length d = BufferSize) chunks ∧
    concat chunks ++ buffered w' = buffered w ++ src.
Proof.
  revert r w env. induction src as [|c src IH]; intros r w env Hf Hb Hp.
  - exists r, w, env, []. cbn [length fmap list_fmap concat app].
    rewrite !app_nil_r, Nat.add_0_r, Z.add_0_r, Nat.mod_small by exact Hp.
    split_and!; [reflexivity|exact Hf|reflexivity|exact Hb|reflexivity
                |reflexivity|tauto|reflexivity|constructor|reflexivity].
  - simpl length.
    assert (Hbuf : buffered (append_byte c w) = buffered w ++ [c])
      by (apply append_byte_buffered; lia).
    assert (Hb1 : length (buff (append_byte c w)) = BufferSize)
      by (cbn [buff append_byte]; by rewrite length_insert).
    destruct (decide (S (writePtr w) < BufferSize)) as [Hroom|Hfull].
    + rewrite write_loop_step_room by done.
      destruct (IH r (append_byte c w) env Hf Hb1 Hroom) as
        (r' & w' & env' & chunks & Hrun & Hf' & Hl' & Hb' & Hp' & Ht' &
         Hr' & Hu' & Hc' & Hs').
      cbn [writePtr bytesWrittenTotal lineBuff append_byte] in *.
      exists r', w', env', chunks.
      split_and!; [exact Hrun|exact Hf'|exact Hl'|exact Hb'|..|exact Hu'
                  |exact Hc'|].
      * rewrite Hp'. by rewrite Nat.add_succ_r.
      * rewrite Ht', to_size_t_succ. f_equal. lia.
      * intros Ht. apply Hr', to_size_t_range. lia.
      * rewrite Hs', Hbuf. by rewrite <- app_assoc.
    + assert (Hfill : S (writePtr w) = BufferSize) by lia.
      rewrite write_loop_step_full by done.
      rewrite (flush_pending _ _ f) by (done || cbn [writePtr append_byte]; lia).
      cbn [fst snd].
      set (code := (FS_FWrite _ _ _ _ _).1). set (env1 := Build_world _ _).
      destruct (IH code (clear (append_byte c w)) env1 Hf Hb1 BufferSize_pos)
        as (r' & w' & env' & chunks & Hrun & Hf' & Hl' & Hb' & Hp' & Ht' &
            Hr' & Hu' & Hc' & Hs').
      cbn [writePtr bytesWrittenTotal lineBuff append_byte clear set_writePtr]
        in Hl', Hp', Ht', Hr'.
      exists r', w', env', (buffered (append_byte c w) :: chunks).
      split_and!; [exact Hrun|exact Hf'|exact Hl'|exact Hb'|..].
      * rewrite Hp'.
        replace (writePtr w + S (length src))
          with (length src + 1 * BufferSize) by lia.
        by rewrite Nat.Div0.mod_add.
      * rewrite Ht', to_size_t_succ. f_equal. lia.
      * intros Ht. apply Hr', to_size_t_range. lia.
      * rewrite Hu'. subst env1. cbn [trace].
        rewrite underlying_writes_app. cbn [underlying_writes fmap list_fmap].
        by rewrite <- app_assoc.
      * constructor; [|exact Hc']. rewrite length_buffered.
        -- exact Hfill.
        -- rewrite Hb1. cbn [writePtr append_byte]. lia.
      * change (concat (buffered (append_byte c w) :: chunks))
          with (buffered (append_byte c w) ++ concat chunks).
        rewrite <- app_assoc, Hs', Hbuf, <- app_assoc. reflexivity.
Qed.

(** *** [write] on an attached file *)

Lemma write_attached src n w env f :
  file w = Some f → write src n w env = write_loop src n 0%Z w env.
Proof. intros Hf. unfold write. by rewrite Hf. Qed.

Lemma write_fits src w env f :
  file w = Some f → length (buff w) = BufferSize →
  writePtr w + length src < BufferSize →
  write src (length src) w env = Ok (0%Z, append_bytes src w, env).
Proof.
  intros Hf Hb Hp. rewrite (write_attached _ _ _ _ f) by done.
  by apply write_loop_fits.
Qed.

Lemma write_all_fits srcs w env f :
  file w = Some f → length (buff w) = BufferSize →
  writePtr w + length (concat srcs) < BufferSize →
  write_all srcs w env =
  Ok (replicate (length srcs) 0%Z, append_bytes (concat srcs) w, env).
Proof.
  revert w. induction srcs as [|src srcs IH]; intros w Hf Hb Hp; [done|].
  simpl in Hp. rewrite length_app in Hp.
  simpl write_all. rewrite (write_fits _ _ _ f) by (done || lia).
  rewrite IH.
  - simpl. do 3 f_equal. clear. revert w.
    induction src as [|c src IHs]; intros w; [done|]. simpl. apply IHs.
  - by rewrite append_bytes_file.
  - by rewrite append_bytes_length_buff.
  - rewrite append_bytes_writePtr. lia.
Qed.

(** The flush of a buffer that was empty before [src] was appended. *)
Lemma flush_appended src w env f :
  file w = Some f → length (buff w) = BufferSize → writePtr w = 0 →
  src ≠ [] → length src ≤ BufferSize →
  flush (append_bytes src w) env =
  ((FS_FWrite src (length src) 1 f (fs env)).1,
   clear (append_bytes src w),
   {| fs := (FS_FWrite src (length src) 1 f (fs env)).2;
      trace := trace env ++
        [EvDebug4 true; EvFWrite src (length src) 1 f; EvDebug4 false] |}).
Proof.
  intros Hf Hb Hp Hne Hle.
  rewrite (flush_pending _ _ f).
  - rewrite append_bytes_buffered, append_bytes_writePtr by lia.
    unfold buffered. rewrite Hp. done.
  - by rewrite append_bytes_file.
  - rewrite append_bytes_writePtr. destruct src; [done|]. simpl. lia.
Qed.

Lemma append_bytes_app s1 s2 w :
  append_bytes (s1 ++ s2) w = append_bytes s2 (append_bytes s1 w).
Proof.
  revert w. induction s1 as [|c s1 IH]; intros w; [done|]. simpl. apply IH.
Qed.

(** A call whose first part [s1] fills the buffer goes on with the rest
    [s2] on the emptied buffer, with the status of that flush in hand. *)
Lemma write_loop_fill_app s1 s2 r w env f :
  file w = Some f → length (buff w) = BufferSize → s1 ≠ [] →
  writePtr w + length s1 = BufferSize →
  write_loop (s1 ++ s2) (length (s1 ++ s2)) r w env =
  write_loop s2 (length s2)
    (FS_FWrite (buffered w ++ s1) BufferSize 1 f (fs env)).1
    (clear (append_bytes s1 w))
    {| fs := (FS_FWrite (buffered w ++ s1) BufferSize 1 f (fs env)).2;
       trace := trace env ++
         [EvDebug4 true; EvFWrite (buffered w ++ s1) BufferSize 1 f;
          EvDebug4 false] |}.
Proof.
  intros Hf Hb Hne Hp.
  rewrite length_app, write_loop_app, write_loop_fill by done.
  rewrite (flush_pending _ _ f).
  - by rewrite append_bytes_buffered, append_bytes_writePtr, Hp by lia.
  - by rewrite append_bytes_file.
  - rewrite append_bytes_writePtr. destruct s1; [done|]. simpl. lia.
Qed.

Lemma clear_append_bytes_wf s1 w :
  length (buff w) = BufferSize →
  length (buff (clear (append_bytes s1 w))) = BufferSize ∧
  writePtr (clear (append_bytes s1 w)) = 0 ∧
  file (clear (append_bytes s1 w)) = file w ∧
  bytesWrittenTotal (clear (append_bytes s1 w)) =
    bytesWrittenTotal (append_bytes s1 w).
Proof.
  intros Hb. split_and!; try done.
  - simpl. by rewrite append_bytes_length_buff.
  - simpl. by rewrite append_bytes_file.
Qed.

Lemma to_size_t_add_l (a b : Z) :
  to_size_t (to_size_t a + b) = to_size_t (a + b).
Proof. unfold to_size_t. by rewrite Zplus_mod_idemp_l. Qed.

Lemma mod_BufferSize_lt (n : nat) : n `mod` BufferSize < BufferSize.
Proof. apply Nat.mod_upper_bound. pose proof BufferSize_pos. lia. Qed.

(** One call of [write] on a well-formed writer with a file attached. *)
Lemma write_spec src w env f :
  wf w → file w = Some f →
  ∃ r' w' env' chunks,
    write src (length src) w env = Ok (r', w', env') ∧
    wf w' ∧ file w' = Some f ∧ lineBuff w' = lineBuff w ∧
    writePtr w' = (writePtr w + length src) `mod` BufferSize ∧
    bytesWrittenTotal w' =
      to_size_t (bytesWrittenTotal w + Z.of_nat (length src)) ∧
    underlying_writes (trace env') =
      underlying_writes (trace env) ++ ((λ d, (f, d)) <$> chunks) ∧
    Forall (λ d, length d = BufferSize) chunks ∧
    concat chunks ++ buffered w' = buffered w ++ src.
Proof.
  intros [Hb Hp Ht] Hf. rewrite (write_attached _ _ _ _ f) by done.
  destruct (write_loop_spec src 0%Z w env f Hf Hb Hp) as
    (r' & w' & env' & chunks & Hrun & Hf' & Hl' & Hb' & Hp' & Ht' &
     Hr' & Hu' & Hc' & Hs').
  exists r', w', env', chunks. split_and!; try done.
  - split; [done| |by apply Hr'].
    rewrite Hp'. apply mod_BufferSize_lt.
  - rewrite <- Ht'. symmetry. apply to_size_t_small. by apply Hr'.
Qed.

(** ** Flushing *)

(** C3: [flush] without a file gives [WriteNoFile] and writes nothing;
    with a file and an empty buffer it gives [0] and writes nothing;
    with a file and [bufferCount] bytes pending it hands exactly these
    bytes of the buffer to the file system in one call, empties the buffer
    whatever code comes back, and returns that code unchanged. *)
Theorem C3_flush_contract w env :
  (file w = None → flush w env = (WriteNoFile, w, env)) ∧
  (∀ f, file w = Some f → bufferCount w = 0 →
     flush w env = (0%Z, w, env)) ∧
  (∀ f code fs1,
     file w = Some f → 0 < bufferCount w →
     bufferCount w ≤ length (buff w) →
     FS_FWrite (buffered w) (bufferCount w) 1 f (fs env) = (code, fs1) →
     ∃ w' env',
       flush w env = (code, w', env') ∧
       bufferCount w' = 0 ∧
       fs env' = fs1 ∧
       length (buffered w) = bufferCount w ∧
       underlying_writes (trace env') =
         underlying_writes (trace env) ++ [(f, buffered w)] ∧
       file w' = file w ∧
       bytesWrittenTotal w' = bytesWrittenTotal w).
Proof.
  split_and!.
  - apply flush_no_file.
  - intros f. apply flush_empty.
  - intros f code fs1 Hf Hp Hle Hfs. unfold bufferCount in *.
    rewrite (flush_pending _ _ f), Hfs by done. simpl.
    eexists _, _. split_and!; try done.
    + by apply length_buffered.
    + simpl. by rewrite underlying_writes_app.
Qed.

(** ** Writes that stay below the capacity *)

(** C1 (amended): write calls on an attached, empty buffer whose lengths
    add up to less than [BufferSize] cause no flush: each returns [0] and
    the world is as before.  The bytes are buffered in call order, and an
    explicit [flush] then issues one underlying write with exactly their
    concatenation when there is at least one byte, and none otherwise. *)
Theorem C1_writes_below_capacity srcs w env f :
  file w = Some f → length (buff w) = BufferSize → bufferCount w = 0 →
  length (concat srcs) < BufferSize →
  ∃ w1,
    write_all srcs w env = Ok (replicate (length srcs) 0%Z, w1, env) ∧
    buffered w1 = concat srcs ∧
    bufferCount w1 = length (concat srcs) ∧
    (concat srcs ≠ [] →
       (flush w1 env).1.1 =
         (FS_FWrite (concat srcs) (length (concat srcs)) 1 f (fs env)).1 ∧
       underlying_writes (trace (flush w1 env).2) =
         underlying_writes (trace env) ++ [(f, concat srcs)]) ∧
    (concat srcs = [] → flush w1 env = (0%Z, w1, env)).
Proof.
  unfold bufferCount. intros Hf Hb Hp Hlen.
  exists (append_bytes (concat srcs) w). split_and!.
  - apply (write_all_fits _ _ _ f); [done|done|lia].
  - rewrite append_bytes_buffered by lia. unfold buffered. by rewrite Hp.
  - rewrite append_bytes_writePtr. lia.
  - intros Hne. rewrite (flush_appended _ _ _ f) by (done || lia). simpl.
    split; [done|]. by rewrite underlying_writes_app.
  - intros Hnil. rewrite Hnil. simpl. by apply (flush_empty _ _ f).
Qed.

(** ** Writes that cross the capacity *)

(** C4: on an attached, empty buffer one write of [BufferSize + 1] bytes
    flushes once, handing over the first [BufferSize] bytes and returning
    the code of that flush; one byte stays buffered, and an explicit
    [flush] then hands over that byte. *)
Theorem C4_one_byte_over_capacity src w env f :
  file w = Some f → length (buff w) = BufferSize → bufferCount w = 0 →
  length src = BufferSize + 1 →
  ∃ w1 env1,
    write src (length src) w env =
      Ok ((FS_FWrite (take BufferSize src) BufferSize 1 f (fs env)).1,
          w1, env1) ∧
    underlying_writes (trace env1) =
      underlying_writes (trace env) ++ [(f, take BufferSize src)] ∧
    bufferCount w1 = 1 ∧
    buffered w1 = drop BufferSize src ∧
    underlying_writes (trace (flush w1 env1).2) =
      underlying_writes (trace env1) ++ [(f, drop BufferSize src)].
Proof.
  unfold bufferCount. intros Hf Hb Hp Hlen.
  pose proof BufferSize_pos as HB.
  assert (H1 : length (take BufferSize src) = BufferSize)
    by (rewrite length_take; lia).
  assert (H2 : length (drop BufferSize src) = 1)
    by (rewrite length_drop; lia).
  assert (Hne : take BufferSize src ≠ [])
    by (intros E; rewrite E in H1; simpl in H1; lia).
  assert (Hone : 1 < BufferSize) by (unfold BufferSize; lia).
  rewrite (write_attached _ _ _ _ f) by done.
  pose proof (take_drop BufferSize src) as Hsplit.
  set (s1 := take BufferSize src) in *. set (s2 := drop BufferSize src) in *.
  clearbody s1 s2. subst src.
  rewrite (write_loop_fill_app _ _ _ _ _ f) by (done || lia).
  destruct (clear_append_bytes_wf s1 w Hb) as (Hb' & Hp' & Hf' & _).
  rewrite write_loop_fits by lia.
  assert (Hbuf : buffered w = []) by (unfold buffered; by rewrite Hp).
  rewrite Hbuf. simpl app at 1 2 3.
  eexists _, _. split; [done|]. split_and!.
  - simpl. by rewrite underlying_writes_app.
  - rewrite append_bytes_writePtr. lia.
  - rewrite append_bytes_buffered by lia. unfold buffered. by rewrite Hp'.
  - rewrite (flush_appended _ _ _ f).
    + simpl. by rewrite underlying_writes_app.
    + congruence.
    + done.
    + done.
    + intros E. rewrite E in H2. simpl in H2. lia.
    + lia.
Qed.

(** ** A flush that fails in the middle of a write *)

(** C5: let the first part [s1] of a write fill the buffer, and let the
    automatic flush at that point come back with any status [code], a
    failure in particular.  The call does not stop there: it ends
    normally, every byte of the rest [s2] is appended behind the failure
    point, in order (as later full buffers handed to the file system, or
    still in the buffer at the end), and all bytes of the call are counted.
    When [s2] does not fill the buffer again, it is exactly what the
    buffer holds afterwards and [code] is what the call returns. *)
Theorem C5_write_goes_on_after_failed_flush s1 s2 w env f code fs1 :
  wf w → file w = Some f → s1 ≠ [] →
  bufferCount w + length s1 = BufferSize →
  FS_FWrite (buffered w ++ s1) BufferSize 1 f (fs env) = (code, fs1) →
  ∃ r' w' env' chunks,
    write (s1 ++ s2) (length (s1 ++ s2)) w env = Ok (r', w', env') ∧
    underlying_writes (trace env') =
      underlying_writes (trace env) ++
      (f, buffered w ++ s1) :: ((λ d, (f, d)) <$> chunks) ∧
    Forall (λ d, length d = BufferSize) chunks ∧
    concat chunks ++ buffered w' = s2 ∧
    bufferCount w' = length s2 `mod` BufferSize ∧
    getBytesWrittenTotal w' =
      to_size_t (getBytesWrittenTotal w +
                 Z.of_nat (length s1) + Z.of_nat (length s2)) ∧
    (length s2 < BufferSize → r' = code ∧ buffered w' = s2 ∧ chunks = []).
Proof.
  unfold bufferCount, getBytesWrittenTotal.
  intros [Hb Hp Ht] Hf Hne Hfill Hfs.
  rewrite (write_attached _ _ _ _ f) by done.
  rewrite (write_loop_fill_app _ _ _ _ _ f), Hfs by done. simpl.
  destruct (clear_append_bytes_wf s1 w Hb) as (Hb' & Hp' & Hf' & Ht').
  set (w1 := clear (append_bytes s1 w)) in *.
  set (env1 := {| fs := fs1; trace := _ |}).
  assert (Hf1 : file w1 = Some f) by congruence.
  assert (Hlt1 : writePtr w1 < BufferSize)
    by (rewrite Hp'; apply BufferSize_pos).
  destruct (write_loop_spec s2 code w1 env1 f Hf1 Hb' Hlt1) as
    (r' & w' & env' & chunks & Hrun & Hf'' & Hl'' & Hb'' & Hp'' & Ht'' &
     Hr'' & Hu'' & Hc'' & Hs'').
  assert (Hbuf1 : buffered w1 = []) by (unfold buffered; by rewrite Hp').
  rewrite Hbuf1 in Hs''. simpl in Hs''.
  assert (Ht1 : bytesWrittenTotal w1 =
                to_size_t (bytesWrittenTotal w + Z.of_nat (length s1)))
    by (rewrite Ht'; by apply append_bytes_total).
  exists r', w', env', chunks. split_and!; try done.
  - rewrite Hu''. subst env1. simpl. rewrite underlying_writes_app. simpl.
    by rewrite <- app_assoc.
  - rewrite <- (to_size_t_small (bytesWrittenTotal w')).
    + by rewrite Ht'', Ht1, to_size_t_add_l.
    + apply Hr''. rewrite Ht1. apply to_size_t_range. lia.
  - intros Hshort.
    rewrite write_loop_fits in Hrun by (done || lia).
    injection Hrun as <- <- <-. split; [done|].
    assert (Hs2 : buffered (append_bytes s2 w1) = s2).
    { rewrite append_bytes_buffered by lia. by rewrite Hbuf1. }
    split; [done|]. rewrite Hs2 in Hs''.
    destruct chunks as [|d chunks]; [done|].
    apply (f_equal length) in Hs''. simpl in Hs''.
    rewrite !length_app in Hs''. apply Forall_cons in Hc'' as [Hd _]. lia.
Qed.

(** ** Strings *)

Lemma strlen_le s n : strlen s = Some n → n ≤ length s.
Proof.
  revert n. induction s as [|c s IH]; intros n Hn; [done|].
  simpl in Hn. destruct (Byte.eqb c x00).
  - injection Hn as <-. lia.
  - destruct (strlen s) as [m|]; [|done]. injection Hn as <-.
    specialize (IH m eq_refl). simpl. lia.
Qed.

(** Only the first [n] bytes at the pointer are read. *)
Lemma write_loop_take n src r w env :
  n ≤ length src →
  write_loop src n r w env =
  write_loop (take n src) (length (take n src)) r w env.
Proof.
  intros Hle. rewrite length_take_le by done.
  revert src r w env Hle. induction n as [|n IH]; intros src r w env Hle.
  - by destruct src.
  - destruct src as [|c src]; [simpl in Hle; lia|].
    simpl in Hle. change (take (S n) (c :: src)) with (c :: take n src).
    rewrite !write_loop_cons.
    destruct (writePtr w <? length (buff w)); [|done].
    destruct (writeEndPtr <=? S (writePtr w)); [|apply IH; lia].
    destruct (flush (append_byte c w) env) as [[r' w2] env2]. apply IH. lia.
Qed.

(** [writeStr] on a string is [write] on the bytes before its NUL. *)
Lemma writeStr_write s n w env :
  strlen s = Some n →
  writeStr (Some s) w env = write (take n s) (length (take n s)) w env ∧
  length (take n s) = n.
Proof.
  intros Hn. pose proof (strlen_le _ _ Hn) as Hle.
  split; [|by apply length_take_le].
  unfold writeStr, write. rewrite Hn.
  destruct (file w); [|done]. by apply write_loop_take.
Qed.

(** ** Writing without a file *)

(** C6 (amended): with no file attached, [write] and [writeStr] on a
    string return [WriteNoFile] and leave the object as it was: nothing is
    buffered, cursor and byte count keep their values, and the file system
    is not called.  [writeStr] on a null pointer leaves the object alone
    as well, and returns [0]. *)
Theorem C6_no_file_nothing_written w env :
  file w = None →
  (∀ source nChars,
     write source nChars w env = Ok (WriteNoFile, w, env)) ∧
  (∀ s, is_Some (strlen s) →
     writeStr (Some s) w env = Ok (WriteNoFile, w, env)) ∧
  writeStr None w env = Ok (0%Z, w, env).
Proof.
  intros Hf. split_and!.
  - intros source nChars. unfold write. by rewrite Hf.
  - intros s [n Hn]. unfold writeStr, write. by rewrite Hn, Hf.
  - done.
Qed.

(** ** The buffer is never left full *)

(** What [flush] keeps, in all three of its cases. *)
Lemma flush_keeps w env :
  file (flush w env).1.2 = file w ∧
  buff (flush w env).1.2 = buff w ∧
  lineBuff (flush w env).1.2 = lineBuff w ∧
  bytesWrittenTotal (flush w env).1.2 = bytesWrittenTotal w ∧
  writePtr (flush w env).1.2 ≤ writePtr w.
Proof.
  unfold flush. destruct (file w) as [f|] eqn:Hf; [|done].
  destruct (0 <? writePtr w); [|done].
  destruct (FS_FWrite _ _ _ _ _) as [r fs']. simpl. split_and!; try done. lia.
Qed.

Lemma write_inv src w env :
  buffer_inv w →
  ∃ r' w' env', write src (length src) w env = Ok (r', w', env') ∧
                buffer_inv w'.
Proof.
  intros [Hb Hp]. unfold write. destruct (file w) as [f|] eqn:Hf.
  - destruct (write_loop_spec src 0%Z w env f Hf Hb Hp) as
      (r' & w' & env' & chunks & Hrun & _ & _ & Hb' & Hp' & _).
    exists r', w', env'. split; [done|]. split; [done|].
    rewrite Hp'. apply mod_BufferSize_lt.
  - by eexists _, _, _.
Qed.

Lemma run_op_inv o w env :
  buffer_inv w → op_defined o →
  ∃ w' env', run_op o w env = Ok (w', env') ∧ buffer_inv w'.
Proof.
  intros Hinv Hdef. pose proof BufferSize_pos as HB.
  destruct o as [f| | | |source|[s|]]; unfold run_op.
  - eexists _, _. split; [done|]. destruct Hinv. by split.
  - eexists _, _. split; [done|]. destruct Hinv. by split.
  - eexists _, _. by split.
  - destruct (flush_keeps w env) as (_ & Hb & _ & _ & Hp).
    destruct (flush w env) as [[r w'] env']. simpl in *.
    eexists _, _. split; [done|]. destruct Hinv. split; [congruence|lia].
  - destruct (write_inv source w env Hinv) as (r' & w' & env' & -> & Hinv').
    by eexists _, _.
  - destruct Hdef as [n Hn].
    destruct (writeStr_write s n w env Hn) as [-> _].
    destruct (write_inv (take n s) w env Hinv)
      as (r' & w' & env' & -> & Hinv').
    by eexists _, _.
  - by eexists _, _.
Qed.

(** C10: whatever the client calls after construction -- [setFile],
    [clear], [resetBytesWrittenTotal], [flush], [write], [writeStr], in
    any order and number, on any file system -- every call returns, and
    when the last one has returned [bufferCount()] is below [BufferSize].
    The empty list of calls is the state the constructor leaves. *)
Theorem C10_buffer_never_left_full buff0 lineBuff0 ops env :
  length buff0 = BufferSize → Forall op_defined ops →
  ∃ w' env',
    run_ops ops (BufferedFileWriter_ctor buff0 lineBuff0) env =
      Ok (w', env') ∧
    bufferCount w' < BufferSize.
Proof.
  intros Hlen Hdef.
  assert (Hinv : buffer_inv (BufferedFileWriter_ctor buff0 lineBuff0))
    by (split; [done|apply BufferSize_pos]).
  revert Hinv. generalize (BufferedFileWriter_ctor buff0 lineBuff0).
  revert env. induction Hdef as [|o ops Ho _ IH]; intros env w Hinv.
  - exists w, env. split; [done|]. by destruct Hinv.
  - destruct (run_op_inv o w env Hinv Ho) as (w1 & env1 & Hrun & Hinv1).
    simpl. rewrite Hrun. by apply IH.
Qed.

(** ** The byte count *)

Lemma wf_buffer_inv w : wf w → buffer_inv w.
Proof. intros [Hb Hp _]. by split. Qed.

(** One writing or flushing call on an attached file: it returns, the
    file stays attached and the counter grows by the bytes passed. *)
Lemma run_op_writes o w env f :
  wf w → file w = Some f → op_defined o → op_writes o →
  ∃ w' env',
    run_op o w env = Ok (w', env') ∧ wf w' ∧ file w' = Some f ∧
    bytesWrittenTotal w' =
      to_size_t (bytesWrittenTotal w + Z.of_nat (op_bytes o)).
Proof.
  intros Hwf Hf Hdef Hwr.
  destruct o as [f'| | | |source|[s|]]; try done; unfold run_op, op_bytes.
  - destruct (flush_keeps w env) as (Hf' & Hb & _ & Ht & Hp).
    destruct (flush w env) as [[r w'] env']. simpl in *.
    destruct Hwf as [Hwb Hwp Hwt].
    eexists _, _. split; [done|]. split_and!.
    + split; [congruence|lia|by rewrite Ht].
    + congruence.
    + rewrite Ht, Z.add_0_r. symmetry. by apply to_size_t_small.
  - destruct (write_spec source w env f Hwf Hf) as
      (r' & w' & env' & chunks & -> & Hwf' & Hf' & _ & _ & Ht' & _).
    by eexists _, _.
  - destruct Hdef as [n Hn].
    destruct (writeStr_write s n w env Hn) as [-> Hlen].
    destruct (write_spec (take n s) w env f Hwf Hf) as
      (r' & w' & env' & chunks & -> & Hwf' & Hf' & _ & _ & Ht' & _).
    eexists _, _. split; [done|]. split_and!; try done.
    by rewrite Ht', Hlen, Hn.
  - eexists _, _. split; [done|]. split_and!; try done.
    simpl. rewrite Z.add_0_r. symmetry. apply to_size_t_small.
    by destruct Hwf.
Qed.

Lemma run_ops_writes ops w env f :
  wf w → file w = Some f → Forall op_defined ops → Forall op_writes ops →
  ∃ w' env',
    run_ops ops w env = Ok (w', env') ∧ wf w' ∧ file w' = Some f ∧
    bytesWrittenTotal w' =
      to_size_t (bytesWrittenTotal w +
                 Z.of_nat (sum_list (op_bytes <$> ops))).
Proof.
  intros Hwf Hf Hdef. revert w env Hwf Hf.
  induction Hdef as [|o ops Ho _ IH]; intros w env Hwf Hf Hwr.
  - exists w, env. split_and!; try done. simpl. rewrite Z.add_0_r.
    symmetry. apply to_size_t_small. by destruct Hwf.
  - apply Forall_cons in Hwr as [Hwo Hwr].
    destruct (run_op_writes o w env f Hwf Hf Ho Hwo)
      as (w1 & env1 & Hrun & Hwf1 & Hf1 & Ht1).
    destruct (IH w1 env1 Hwf1 Hf1 Hwr) as (w' & env' & Hrun' & Hwf' & Hf' & Ht').
    exists w', env'. simpl run_ops. rewrite Hrun.
    split_and!; try done.
    rewrite Ht', Ht1, to_size_t_add_l. f_equal.
    rewrite fmap_cons. simpl sum_list. lia.
Qed.

(** C2 (amended): let write, writeStr and flush calls, in any order and
    of any lengths, run on a writer with a file attached.  All of them
    return, and [getBytesWrittenTotal()] has grown by the sum of the byte
    lengths passed, in the arithmetic of [size_t], that is modulo
    [SIZE_MAX + 1]: counted from [0] it is exactly that sum as long as
    the sum is a [size_t] value, however many flushes there were.
    [resetBytesWrittenTotal()] makes it [0]; [setFile()] keeps it. *)
Theorem C2_total_counts_bytes_passed ops w env f :
  wf w → file w = Some f → Forall op_defined ops → Forall op_writes ops →
  ∃ w' env',
    run_ops ops w env = Ok (w', env') ∧
    getBytesWrittenTotal w' =
      to_size_t (getBytesWrittenTotal w +
                 Z.of_nat (sum_list (op_bytes <$> ops))) ∧
    (getBytesWrittenTotal w = 0%Z →
     (Z.of_nat (sum_list (op_bytes <$> ops)) ≤ SIZE_MAX)%Z →
     getBytesWrittenTotal w' = Z.of_nat (sum_list (op_bytes <$> ops))) ∧
    getBytesWrittenTotal (resetBytesWrittenTotal w') = 0%Z ∧
    (∀ f', getBytesWrittenTotal (setFile f' w') = getBytesWrittenTotal w').
Proof.
  intros Hwf Hf Hdef Hwr. unfold getBytesWrittenTotal.
  destruct (run_ops_writes ops w env f Hwf Hf Hdef Hwr)
    as (w' & env' & Hrun & _ & _ & Ht).
  exists w', env'. split_and!; try done.
  intros H0 Hsum. rewrite Ht, H0. apply to_size_t_small. lia.
Qed.

(** ** Formatted writes *)

(** A count beyond the readable bytes makes the loop read past them,
    here before the buffer fills. *)
Lemma write_loop_overrun src n r w env :
  length src < n → length (buff w) = BufferSize →
  writePtr w + length src < BufferSize →
  write_loop src n r w env = Undefined.
Proof.
  revert n w. induction src as [|c src IH]; intros n w Hn Hb Hp.
  - destruct n; [lia|done].
  - destruct n as [|n]; [lia|]. simpl in Hn, Hp.
    rewrite write_loop_step_room by lia.
    apply IH; [lia| |]; simpl.
    + by rewrite length_insert.
    + lia.
Qed.

(** The statements of [logPrintf] when the length that [vsnprintf]
    reports stays inside [lineBuff] and the bytes fit the buffer: that
    many bytes of [lineBuff] are appended and counted. *)
Lemma logPrintf_in_bounds rendered line w env f :
  wf w → file w = Some f →
  (vsnprintf (lineBuff w) LineBuffSize (Text rendered)).1 = line →
  (Z.of_nat (length rendered) ≤ SIZE_MAX)%Z →
  length rendered ≤ length line →
  writePtr w + length rendered < BufferSize →
  ∃ w1,
    logPrintf_body (Some (Text rendered)) w env = Ok (w1, env) ∧
    lineBuff w1 = line ∧
    buffered w1 = buffered w ++ take (length rendered) line ∧
    bufferCount w1 = writePtr w + length rendered ∧
    getBytesWrittenTotal w1 =
      to_size_t (bytesWrittenTotal w + Z.of_nat (length rendered)).
Proof.
  intros [Hb Hp Ht] Hf Hline Hmax Hlen Hroom.
  unfold logPrintf_body.
  assert (Hret : (vsnprintf (lineBuff w) LineBuffSize (Text rendered)).2 =
                 Z.of_nat (length rendered)) by done.
  destruct (vsnprintf (lineBuff w) LineBuffSize (Text rendered))
    as [l nChars].
  cbn [fst snd] in Hline, Hret. subst l nChars.
  rewrite to_size_t_small, Nat2Z.id by lia.
  rewrite (write_attached _ _ _ _ f) by done.
  rewrite write_loop_take by done.
  assert (Hn : length (take (length rendered) line) = length rendered)
    by (by apply length_take_le).
  rewrite write_loop_fits by (done || simpl; lia).
  eexists. split; [done|]. split_and!.
  - by rewrite append_bytes_lineBuff.
  - rewrite append_bytes_buffered by (simpl; lia). done.
  - unfold bufferCount. rewrite append_bytes_writePtr, Hn. done.
  - unfold getBytesWrittenTotal. rewrite append_bytes_total by done.
    simpl. by rewrite Hn.
Qed.

(** The statements of [logPrintf] when the reported length is beyond
    [lineBuff]. *)
Lemma logPrintf_overrun rendered line w env f :
  wf w → file w = Some f →
  (vsnprintf (lineBuff w) LineBuffSize (Text rendered)).1 = line →
  (Z.of_nat (length rendered) ≤ SIZE_MAX)%Z →
  length line < length rendered →
  writePtr w + length line < BufferSize →
  logPrintf_body (Some (Text rendered)) w env = Undefined.
Proof.
  intros [Hb Hp Ht] Hf Hline Hmax Hlen Hroom.
  unfold logPrintf_body.
  assert (Hret : (vsnprintf (lineBuff w) LineBuffSize (Text rendered)).2 =
                 Z.of_nat (length rendered)) by done.
  destruct (vsnprintf (lineBuff w) LineBuffSize (Text rendered))
    as [l nChars].
  cbn [fst snd] in Hline, Hret. subst l nChars.
  rewrite to_size_t_small, Nat2Z.id by lia.
  rewrite (write_attached _ _ _ _ f) by done.
  by rewrite write_loop_overrun.
Qed.

(** C8: [writeStr] on a null pointer returns [0] and leaves buffer and
    byte count alone.  [logPrintf] has no such test: a null format goes to
    [vsnprintf] as it is, so that the call is undefined in its first
    statement already and has no defined result. *)
Theorem C8_null_arguments w env :
  writeStr None w env = Ok (0%Z, w, env) ∧
  logPrintf None w env = Undefined ∧
  logPrintf_body None w env = Undefined.
Proof. by split_and!. Qed.

End WriterFacts.

(** ** Runs on the concrete platforms *)

(** C1, as stated, fails at both ends of its range.  One write of exactly
    [BufferSize] bytes is flushed automatically on its last byte, so the
    world has changed when the call returns, and the explicit [flush]
    after it finds the buffer empty and issues no write.  And after writes
    of no bytes at all the explicit [flush] issues no write either. *)
Lemma C1_counterexample :
  let src := replicate BufferSize x41 in
  length (concat [src]) ≤ BufferSize ∧
  (∃ w1 env1,
     write src (length src) (attached_writer 1) (empty_world 1) =
       Ok (1%Z, w1, env1) ∧
     underlying_writes (trace env1) = [(tt, src)] ∧
     underlying_writes (trace (empty_world 1)) = [] ∧
     flush w1 env1 = (0%Z, w1, env1)) ∧
  flush (attached_writer 1) (empty_world 1) =
    (0%Z, attached_writer 1, empty_world 1).
Proof.
  intros src.
  assert (Hlen : length src = BufferSize) by apply length_replicate.
  clearbody src.
  assert (Hne : src ≠ []).
  { intros E. rewrite E in Hlen. pose proof (@BufferSize_pos). simpl in Hlen.
    lia. }
  split_and!.
  - cbn [concat]. rewrite app_nil_r, Hlen. apply Nat.le_refl.
  - rewrite (write_attached (H:=constant_platform 1) _ _ _ _ tt)
      by reflexivity.
    rewrite write_loop_fill; [|apply length_replicate|exact Hne|exact Hlen].
    rewrite (flush_appended (H:=constant_platform 1) _ _ _ tt);
      [|reflexivity|apply length_replicate|reflexivity|exact Hne
       |rewrite Hlen; apply Nat.le_refl].
    eexists _, _. split; [reflexivity|]. split_and!; [reflexivity..|].
    apply (flush_empty (H:=constant_platform 1) _ _ tt); [|reflexivity].
    cbn [file clear set_writePtr]. by rewrite append_bytes_file.
  - reflexivity.
Qed.

Lemma attached_writer_wf code : wf (attached_writer code).
Proof.
  split.
  - apply length_replicate.
  - exact (@BufferSize_pos).
  - change (0 ≤ 0 ≤ 4294967295)%Z. lia.
Qed.

Lemma narrow_writer_wf : wf narrow_writer.
Proof.
  split.
  - apply length_replicate.
  - exact (@BufferSize_pos).
  - change (0 ≤ 0 ≤ 65535)%Z. lia.
Qed.

(** C2, as stated, fails where the sum of the lengths is no [size_t]
    value.  With a 16-bit [size_t], two writes of 32768 bytes each, counted
    from [0] with the file attached, both return, and the count is then
    [0], not the 65536 bytes passed. *)
Lemma C2_counterexample :
  let ops := [OpWrite (H:=narrow_platform) (replicate (8 * BufferSize) x41);
              OpWrite (replicate (8 * BufferSize) x41)] in
  file narrow_writer = Some tt ∧
  getBytesWrittenTotal narrow_writer = 0%Z ∧
  Z.of_nat (sum_list (op_bytes <$> ops)) = 65536%Z ∧
  ∃ w' env',
    run_ops ops narrow_writer narrow_world = Ok (w', env') ∧
    getBytesWrittenTotal w' = 0%Z ∧
    getBytesWrittenTotal w' ≠ Z.of_nat (sum_list (op_bytes <$> ops)).
Proof.
  intros ops.
  assert (Hsum : Z.of_nat (sum_list (op_bytes <$> ops)) = 65536%Z).
  { assert (HB : Z.of_nat BufferSize = 4096%Z) by reflexivity.
    unfold ops. cbn [fmap list_fmap op_bytes].
    change (sum_list [length (replicate (8 * BufferSize) x41);
                      length (replicate (8 * BufferSize) x41)])
      with (length (replicate (8 * BufferSize) x41) +
            (length (replicate (8 * BufferSize) x41) + 0)).
    rewrite !length_replicate, !Nat2Z.inj_add, !Nat2Z.inj_mul, HB.
    reflexivity. }
  assert (Hdef : Forall op_defined ops) by (by repeat constructor).
  assert (Hwr : Forall op_writes ops) by (by repeat constructor).
  clearbody ops.
  destruct (run_ops_writes (H:=narrow_platform) ops narrow_writer
              narrow_world tt narrow_writer_wf eq_refl Hdef Hwr)
    as (w' & env' & Hrun & _ & _ & Htot).
  rewrite Hsum in Htot.
  change (bytesWrittenTotal w' = 0%Z) in Htot.
  split_and!; [reflexivity|reflexivity|exact Hsum|].
  exists w', env'. unfold getBytesWrittenTotal.
  split_and!; [exact Hrun|exact Htot|].
  rewrite Htot, Hsum. discriminate.
Qed.

(** C6, as stated, fails for [writeStr] on a null pointer: with no file
    attached it returns [0], which is not [WriteNoFile]. *)
Lemma C6_counterexample :
  file (fresh_writer 1) = None ∧
  writeStr None (fresh_writer 1)
      (empty_world 1) =
    Ok (0%Z, fresh_writer 1,
        empty_world 1) ∧
  0%Z ≠ WriteNoFile.
Proof. split_and!; [reflexivity|reflexivity|discriminate]. Qed.

(** C7: [logPrintf] returns no boolean.  Its body has no [return]
    statement, so that no call, on any platform, format, writer or world,
    has a defined result.  On the accepting platform, with a file
    attached, the statements of the body buffer and count the one-byte
    text "x" and no underlying write fails; no [true] follows. *)
Theorem C7_logPrintf_returns_no_boolean :
  (∀ (P : Platform) fmt (w : @BufferedFileWriter P) env,
     logPrintf fmt w env = Undefined) ∧
  ∃ w1,
    logPrintf_body (Some (Text [x78])) (attached_writer 1) (empty_world 1) =
      Ok (w1, empty_world 1) ∧
    buffered w1 = [x78] ∧
    getBytesWrittenTotal w1 = 1%Z.
Proof.
  split.
  - intros P fmt w env. unfold logPrintf.
    by destruct (logPrintf_body fmt w env).
  - destruct (logPrintf_in_bounds (H:=constant_platform 1) [x78]
                (x78 :: x00 :: replicate (LineBuffSize - 1) x00)
                (attached_writer 1) (empty_world 1) tt)
      as (w1 & Hrun & _ & Hbuf & _ & Htot).
    + apply attached_writer_wf.
    + reflexivity.
    + vm_compute. reflexivity.
    + vm_compute. discriminate.
    + cbn [length]. lia.
    + unfold BufferSize. cbn [length writePtr attached_writer setFile clear
                              set_writePtr]. lia.
    + exists w1. split_and!; [exact Hrun|exact Hbuf|exact Htot].
Qed.

(** C9: in the statements of [logPrintf], a text of [LineBuffSize + 1]
    bytes is cut to [LineBuffSize - 1] bytes and a NUL in [lineBuff].  But
    [write] is given the length of the whole text: the buffer receives,
    and the counter counts, [LineBuffSize + 1] bytes of [lineBuff] -- the
    cut text, its NUL and the byte behind it -- not the cut text alone.
    From [LineBuffSize + 2] bytes on, the loop reads past the end of
    [lineBuff]. *)
Theorem C9_truncated_text_forwarded_with_full_length :
  let rendered := replicate (LineBuffSize + 1) x41 in
  let cut := replicate (LineBuffSize - 1) x41 in
  (∃ w1,
     logPrintf_body (Some (Text rendered)) (attached_writer 1)
         (empty_world 1) = Ok (w1, empty_world 1) ∧
     take LineBuffSize (lineBuff w1) = cut ++ [x00] ∧
     buffered w1 = cut ++ [x00; x00] ∧
     bufferCount w1 = LineBuffSize + 1 ∧
     getBytesWrittenTotal w1 = Z.of_nat (LineBuffSize + 1) ∧
     length cut = LineBuffSize - 1) ∧
  logPrintf_body (Some (Text (replicate (LineBuffSize + 2) x41)))
    (attached_writer 1) (empty_world 1) = Undefined.
Proof.
  intros rendered cut.
  assert (Hline : ∀ n, LineBuffSize ≤ n →
    (vsnprintf (lineBuff (attached_writer 1)) LineBuffSize
       (Text (replicate n x41))).1 = cut ++ [x00; x00]).
  { intros n Hn. unfold vsnprintf. cbn [fst].
    rewrite take_replicate, Nat.min_l by (unfold LineBuffSize in *; lia).
    rewrite length_replicate. fold cut.
    apply (f_equal (app cut)). reflexivity. }
  assert (Hcut : length (cut ++ [x00; x00]) = LineBuffSize + 1).
  { rewrite length_app. unfold cut. rewrite length_replicate.
    unfold LineBuffSize. cbn [length]. lia. }
  split.
  - destruct (logPrintf_in_bounds (H:=constant_platform 1) rendered
                (cut ++ [x00; x00]) (attached_writer 1) (empty_world 1) tt)
      as (w1 & Hrun & Hl & Hbuf & Hcount & Htot).
    + apply attached_writer_wf.
    + reflexivity.
    + apply Hline. lia.
    + unfold rendered. rewrite length_replicate.
      change (@SIZE_MAX (constant_platform 1)) with 4294967295%Z.
      unfold LineBuffSize. lia.
    + unfold rendered. rewrite length_replicate, Hcut. lia.
    + unfold rendered. rewrite length_replicate.
      change (writePtr (attached_writer 1)) with 0.
      unfold LineBuffSize, BufferSize. lia.
    + unfold rendered in *. rewrite length_replicate in *.
      exists w1. split_and!.
      * exact Hrun.
      * rewrite Hl. change (cut ++ [x00; x00]) with (cut ++ [x00] ++ [x00]).
        rewrite app_assoc. rewrite take_app_length'; [reflexivity|].
        rewrite length_app. unfold cut. rewrite length_replicate.
        unfold LineBuffSize. cbn [length]. lia.
      * rewrite Hbuf. change (buffered (attached_writer 1)) with (@nil byte).
        rewrite take_ge by (rewrite Hcut; lia). reflexivity.
      * rewrite Hcount. reflexivity.
      * rewrite Htot. reflexivity.
      * apply length_replicate.
  - apply (logPrintf_overrun (H:=constant_platform 1) _
             (cut ++ [x00; x00]) _ _ tt).
    + apply attached_writer_wf.
    + reflexivity.
    + apply Hline. lia.
    + rewrite length_replicate.
      change (@SIZE_MAX (constant_platform 1)) with 4294967295%Z.
      unfold LineBuffSize. lia.
    + rewrite length_replicate, Hcut. lia.
    + rewrite Hcut. change (writePtr (attached_writer 1)) with 0.
      unfold LineBuffSize, BufferSize. lia.
Qed.

(** ** The theorems at concrete inputs *)

(** Three bytes in two calls: nothing is flushed until the explicit
    [flush], which writes "ABC" once. *)
Lemma C1_witness :
  let srcs := [[x41; x42]; [x43]] in
  (file (attached_writer 1) = Some tt ∧
   length (buff (attached_writer 1)) = BufferSize ∧
   bufferCount (attached_writer 1) = 0 ∧
   length (concat srcs) < BufferSize) ∧
  ∃ w1,
    write_all srcs (attached_writer 1) (empty_world 1) =
      Ok ([0%Z; 0%Z], w1, empty_world 1) ∧
    buffered w1 = [x41; x42; x43] ∧
    underlying_writes (trace (flush w1 (empty_world 1)).2) =
      [(tt, [x41; x42; x43])].
Proof.
  intros srcs.
  assert (H1 : file (attached_writer 1) = Some tt) by reflexivity.
  assert (H2 : length (buff (attached_writer 1)) = BufferSize)
    by apply length_replicate.
  assert (H3 : bufferCount (attached_writer 1) = 0) by reflexivity.
  assert (H4 : length (concat srcs) < BufferSize)
    by (unfold BufferSize; cbn [srcs concat app length]; lia).
  split; [by split_and!|].
  destruct (C1_writes_below_capacity (H:=constant_platform 1)
              srcs (attached_writer 1) (empty_world 1) tt H1 H2 H3 H4)
    as (w1 & Hrun & Hbuf & _ & Hflush & _).
  exists w1. split_and!; [exact Hrun|exact Hbuf|].
  apply Hflush. discriminate.
Defined.

(** A write, a flush and a string: the counter shows the three bytes. *)
Lemma C2_witness :
  let ops := [OpWrite [x41; x42]; OpFlush; OpWriteStr (Some [x43; x00])] in
  (wf (attached_writer 1) ∧ file (attached_writer 1) = Some tt ∧
   Forall op_defined ops ∧ Forall op_writes ops) ∧
  ∃ w' env',
    run_ops ops (attached_writer 1) (empty_world 1) = Ok (w', env') ∧
    getBytesWrittenTotal w' = 3%Z ∧
    getBytesWrittenTotal (resetBytesWrittenTotal w') = 0%Z ∧
    getBytesWrittenTotal (setFile None w') = getBytesWrittenTotal w'.
Proof.
  intros ops.
  assert (H1 : wf (attached_writer 1)) by apply attached_writer_wf.
  assert (H2 : file (attached_writer 1) = Some tt) by reflexivity.
  assert (H3 : Forall op_defined ops).
  { repeat constructor. by exists 1. }
  assert (H4 : Forall op_writes ops) by repeat constructor.
  split; [by split_and!|].
  destruct (C2_total_counts_bytes_passed (H:=constant_platform 1)
              ops (attached_writer 1) (empty_world 1) tt H1 H2 H3 H4)
    as (w' & env' & Hrun & _ & Hsum & Hreset & Hset).
  exists w', env'. split_and!; [exact Hrun| |exact Hreset|apply Hset].
  apply Hsum; [reflexivity|]. vm_compute. discriminate.
Defined.

(** [flush] with no file, with nothing buffered, and with one byte
    buffered. *)
Lemma C3_witness :
  let w := append_bytes [x41] (attached_writer 1) in
  flush (fresh_writer 1) (empty_world 1) =
    (WriteNoFile, fresh_writer 1, empty_world 1) ∧
  flush (attached_writer 1) (empty_world 1) =
    (0%Z, attached_writer 1, empty_world 1) ∧
  (file w = Some tt ∧ 0 < bufferCount w ∧ bufferCount w ≤ length (buff w) ∧
   @FS_FWrite (constant_platform 1) (buffered w) (bufferCount w) 1 tt
     (fs (empty_world 1)) = (1%Z, tt)) ∧
  ∃ w' env',
    flush w (empty_world 1) = (1%Z, w', env') ∧
    bufferCount w' = 0 ∧
    underlying_writes (trace env') = [(tt, buffered w)].
Proof.
  intros w.
  destruct (C3_flush_contract (H:=constant_platform 1)
              (fresh_writer 1) (empty_world 1))
    as (Hnone & _ & _).
  destruct (C3_flush_contract (H:=constant_platform 1)
              (attached_writer 1) (empty_world 1))
    as (_ & Hempty & _).
  destruct (C3_flush_contract (H:=constant_platform 1) w (empty_world 1))
    as (_ & _ & Hpending).
  assert (H1 : file w = Some tt) by reflexivity.
  assert (H2 : 0 < bufferCount w) by (cbn; lia).
  assert (H3 : bufferCount w ≤ length (buff w)).
  { unfold w. rewrite append_bytes_length_buff.
    change (1 ≤ length (replicate BufferSize x00)).
    rewrite length_replicate. unfold BufferSize. lia. }
  assert (H4 : @FS_FWrite (constant_platform 1) (buffered w) (bufferCount w)
                 1 tt (fs (empty_world 1)) = (1%Z, tt)) by reflexivity.
  split_and!.
  - apply Hnone. reflexivity.
  - apply (Hempty tt); reflexivity.
  - exact H1.
  - exact H2.
  - exact H3.
  - exact H4.
  - destruct (Hpending tt 1%Z tt H1 H2 H3 H4)
      as (w' & env' & Hrun & Hcount & _ & _ & Htrace & _).
    exists w', env'. split_and!; [exact Hrun|exact Hcount|exact Htrace].
Defined.

(** A full buffer of "A" and one "B": the "A"s are flushed by the write,
    the "B" by the explicit flush. *)
Lemma C4_witness :
  let src := replicate BufferSize x41 ++ [x42] in
  (file (attached_writer 1) = Some tt ∧
   length (buff (attached_writer 1)) = BufferSize ∧
   bufferCount (attached_writer 1) = 0 ∧
   length src = BufferSize + 1) ∧
  ∃ w1 env1,
    write src (length src) (attached_writer 1) (empty_world 1) =
      Ok (1%Z, w1, env1) ∧
    underlying_writes (trace env1) = [(tt, take BufferSize src)] ∧
    bufferCount w1 = 1 ∧
    buffered w1 = drop BufferSize src ∧
    underlying_writes (trace (flush w1 env1).2) =
      [(tt, take BufferSize src); (tt, drop BufferSize src)].
Proof.
  intros src.
  assert (H1 : file (attached_writer 1) = Some tt) by reflexivity.
  assert (H2 : length (buff (attached_writer 1)) = BufferSize)
    by apply length_replicate.
  assert (H3 : bufferCount (attached_writer 1) = 0) by reflexivity.
  assert (H4 : length src = BufferSize + 1).
  { unfold src. rewrite length_app, length_replicate. reflexivity. }
  split; [by split_and!|]. clearbody src.
  destruct (C4_one_byte_over_capacity (H:=constant_platform 1)
              src (attached_writer 1) (empty_world 1) tt H1 H2 H3 H4)
    as (w1 & env1 & Hrun & Htrace & Hcount & Hbuf & Hflush).
  exists w1, env1.
  split_and!; [exact Hrun|exact Htrace|exact Hcount|exact Hbuf|].
  rewrite Hflush, Htrace. reflexivity.
Defined.

(** The same bytes on the file system that refuses every write: the
    flush of the "A"s comes back with [0], the call goes on, and the "B"
    is buffered and counted. *)
Lemma C5_witness :
  let s1 := replicate BufferSize x41 in
  let s2 := [x42] in
  (wf (attached_writer 0) ∧ file (attached_writer 0) = Some tt ∧
   s1 ≠ [] ∧ bufferCount (attached_writer 0) + length s1 = BufferSize ∧
   @FS_FWrite (constant_platform 0) (buffered (attached_writer 0) ++ s1)
     BufferSize 1 tt (fs (empty_world 0)) = (0%Z, tt)) ∧
  ∃ w' env',
    write (s1 ++ s2) (length (s1 ++ s2)) (attached_writer 0) (empty_world 0) =
      Ok (0%Z, w', env') ∧
    buffered w' = s2 ∧
    getBytesWrittenTotal w' =
      to_size_t (H:=constant_platform 0)
        (0 + Z.of_nat (length s1) + Z.of_nat (length s2)).
Proof.
  intros s1 s2.
  assert (H1 : wf (attached_writer 0)) by apply attached_writer_wf.
  assert (H2 : file (attached_writer 0) = Some tt) by reflexivity.
  assert (Hlen : length s1 = BufferSize) by apply length_replicate.
  clearbody s1.
  assert (H3 : s1 ≠ []).
  { intros E. rewrite E in Hlen. pose proof (@BufferSize_pos).
    cbn [length] in Hlen. lia. }
  assert (H4 : bufferCount (attached_writer 0) + length s1 = BufferSize)
    by exact Hlen.
  assert (H5 : @FS_FWrite (constant_platform 0)
                 (buffered (attached_writer 0) ++ s1) BufferSize 1 tt
                 (fs (empty_world 0)) = (0%Z, tt)) by reflexivity.
  split; [by split_and!|].
  destruct (C5_write_goes_on_after_failed_flush (H:=constant_platform 0)
              s1 s2 (attached_writer 0) (empty_world 0) tt 0%Z tt
              H1 H2 H3 H4 H5)
    as (r' & w' & env' & chunks & Hrun & _ & _ & _ & _ & Htot & Hshort).
  destruct Hshort as (Hr & Hbuf & _).
  { unfold BufferSize. cbn [s2 length]. lia. }
  subst r'. exists w', env'.
  split_and!; [exact Hrun|exact Hbuf|exact Htot].
Defined.

(** No file: [write] and [writeStr] on a string give [WriteNoFile],
    [writeStr] on a null pointer gives [0], and the writer is as before. *)
Lemma C6_witness :
  let w := fresh_writer 1 in
  let env := empty_world 1 in
  file w = None ∧
  write [x41] 1 w env = Ok (WriteNoFile, w, env) ∧
  writeStr (Some [x41; x00]) w env = Ok (WriteNoFile, w, env) ∧
  writeStr None w env = Ok (0%Z, w, env).
Proof.
  intros w env.
  assert (H1 : file w = None) by reflexivity.
  destruct (C6_no_file_nothing_written (H:=constant_platform 1) w env H1)
    as (Hwrite & Hstr & Hnull).
  split_and!; [exact H1|apply Hwrite| |exact Hnull].
  apply Hstr. by exists 1.
Defined.

(** A client that attaches the file, fills the buffer exactly, writes a
    string and flushes. *)
Lemma C10_witness :
  let ops := [OpSetFile (H:=constant_platform 1) (Some tt);
              OpWrite (replicate BufferSize x41);
              OpWriteStr (Some [x42; x00]); OpFlush] in
  (length (replicate BufferSize x00) = BufferSize ∧
   Forall (op_defined (H:=constant_platform 1)) ops) ∧
  ∃ w' env',
    run_ops ops (fresh_writer 1) (empty_world 1) =
      Ok (w', env') ∧
    bufferCount w' < BufferSize.
Proof.
  intros ops.
  assert (H1 : length (replicate BufferSize x00) = BufferSize)
    by apply length_replicate.
  assert (H2 : Forall (op_defined (H:=constant_platform 1)) ops).
  { repeat constructor. by exists 1. }
  split; [by split|].
  apply (C10_buffer_never_left_full (H:=constant_platform 1)
           (replicate BufferSize x00) (replicate (S LineBuffSize) x00)
           ops (empty_world 1) H1 H2).
Defined.

(** * Beyond single calls: streams, sessions and the rest of the class *)

Section WriterStreams.
Context `{Platform}.

(** ** One underlying write in the trace *)

Lemma flush_trace w env f :
  file w = Some f → 0 < writePtr w → writePtr w ≤ length (buff w) →
  flush w env =
  ((FS_FWrite (buffered w) (length (buffered w)) 1 f (fs env)).1,
   clear w,
   {| fs := (FS_FWrite (buffered w) (length (buffered w)) 1 f (fs env)).2;
      trace := trace env ++ flush_events f (buffered w) |}).
Proof.
  intros Hf Hp Hle. rewrite (flush_pending _ _ f) by done.
  unfold flush_events. by rewrite length_buffered.
Qed.

Lemma underlying_writes_flush_events f chunks :
  underlying_writes (concat (flush_events f <$> chunks)) =
  (λ d, (f, d)) <$> chunks.
Proof.
  induction chunks as [|d chunks IH]; [done|].
  rewrite !fmap_cons. cbn [concat flush_events app underlying_writes].
  by rewrite IH.
Qed.

Lemma snd_pair_fmap (f : FS_FILE) (l : list (list byte)) :
  snd <$> ((λ d, (f, d)) <$> l) = l.
Proof. induction l as [|d l IH]; [done|]. rewrite !fmap_cons, IH. done. Qed.

Lemma length_concat_chunks (chunks : list (list byte)) :
  Forall (λ d, length d = BufferSize) chunks →
  length (concat chunks) = BufferSize * length chunks.
Proof.
  induction 1 as [|d chunks Hd _ IH]; [cbn [concat length]; lia|].
  cbn [concat length]. rewrite length_app, IH, Hd. lia.
Qed.

(** The trace and the file system after the loop of [write]: the buffers
    flushed on the way went out one after the other, bracketed by the
    debug pin, and the status in hand at the end is that of the last. *)
Lemma write_loop_trace src r w env f :
  file w = Some f → length (buff w) = BufferSize →
  writePtr w < BufferSize →
  ∃ r' w' env' chunks,
    write_loop src (length src) r w env = Ok (r', w', env') ∧
    trace env' = trace env ++ concat (flush_events f <$> chunks) ∧
    (r', fs env') = send_chunks f chunks r (fs env).
Proof.
  revert r w env. induction src as [|c src IH]; intros r w env Hf Hb Hp.
  - exists r, w, env, []. cbn [fmap list_fmap concat]. rewrite app_nil_r.
    split_and!; reflexivity.
  - simpl length.
    assert (Hb1 : length (buff (append_byte c w)) = BufferSize)
      by (cbn [buff append_byte]; by rewrite length_insert).
    destruct (decide (S (writePtr w) < BufferSize)) as [Hroom|Hfull].
    + rewrite write_loop_step_room by done.
      apply (IH r (append_byte c w) env Hf Hb1 Hroom).
    + assert (Hfill : S (writePtr w) = BufferSize) by lia.
      rewrite write_loop_step_full by done.
      rewrite (flush_trace _ _ f)
        by (done || cbn [writePtr buff append_byte];
            rewrite ?length_insert; lia).
      cbn [fst snd].
      set (d := buffered (append_byte c w)).
      set (env1 := Build_world _ _).
      destruct (IH (FS_FWrite d (length d) 1 f (fs env)).1
                  (clear (append_byte c w)) env1 Hf Hb1 BufferSize_pos)
        as (r' & w' & env' & chunks & Hrun & Htr & Hcode).
      exists r', w', env', (d :: chunks). split_and!.
      * exact Hrun.
      * rewrite Htr. subst env1. cbn [trace]. rewrite fmap_cons.
        cbn [concat]. by rewrite <- app_assoc.
      * rewrite Hcode. subst env1. cbn [fs send_chunks].
        by destruct (FS_FWrite d (length d) 1 f (fs env)).
Qed.

(** ** One write of any length *)

(** [write] on an attached file, with the buffers it flushes on the way. *)
Lemma write_chunks src w env f :
  wf w → file w = Some f →
  ∃ r' w' env' chunks,
    write src (length src) w env = Ok (r', w', env') ∧
    trace env' = trace env ++ concat (flush_events f <$> chunks) ∧
    Forall (λ d, length d = BufferSize) chunks ∧
    writePtr w' = (writePtr w + length src) `mod` BufferSize ∧
    concat chunks ++ buffered w' = buffered w ++ src ∧
    (r', fs env') = send_chunks f chunks 0%Z (fs env) ∧
    wf w' ∧ file w' = Some f.
Proof.
  intros Hwf Hf. pose proof Hwf as [Hb Hp Ht].
  destruct (write_spec src w env f Hwf Hf) as
    (r' & w' & env' & chunks & Hrun & Hwf' & Hf' & _ & Hp' & _ & Hu &
     Hlen & Hcat).
  rewrite (write_attached _ _ _ _ f) in Hrun |- * by done.
  destruct (write_loop_trace src 0%Z w env f Hf Hb Hp) as
    (r2 & w2 & env2 & chunks2 & Hrun2 & Htr & Hcode).
  rewrite Hrun in Hrun2. injection Hrun2 as <- <- <-.
  assert (chunks2 = chunks) as ->.
  { rewrite Htr, underlying_writes_app, underlying_writes_flush_events in Hu.
    apply app_inv_head in Hu. apply (f_equal (fmap snd)) in Hu.
    by rewrite !snd_pair_fmap in Hu. }
  exists r', w', env', chunks. by split_and!.
Qed.

(** X1: one [write] of any length on a writer with a file attached.  The
    call returns.  What it passes to the file system is a row of whole
    buffers, [BufferSize] bytes each, one underlying write per buffer and
    each bracketed by the debug pin; their number is the quotient, and the
    bytes left in the buffer the remainder, of the bytes at hand by
    [BufferSize].  Flushed and buffered bytes together are the old buffer
    followed by the source: nothing is lost, doubled or reordered.  The
    status returned is that of the last of these writes, [0] when there
    was none. *)
Theorem write_stream src w env f :
  wf w → file w = Some f →
  ∃ r' w' env' chunks,
    write src (length src) w env = Ok (r', w', env') ∧
    trace env' = trace env ++ concat (flush_events f <$> chunks) ∧
    Forall (λ d, length d = BufferSize) chunks ∧
    length chunks = (bufferCount w + length src) / BufferSize ∧
    bufferCount w' = (bufferCount w + length src) `mod` BufferSize ∧
    concat chunks ++ buffered w' = buffered w ++ src ∧
    (r', fs env') = send_chunks f chunks 0%Z (fs env) ∧
    wf w' ∧ file w' = Some f.
Proof.
  intros Hwf Hf. pose proof Hwf as [Hb Hp Ht]. unfold bufferCount.
  destruct (write_chunks src w env f Hwf Hf) as
    (r' & w' & env' & chunks & Hrun & Htr & Hlen & Hp' & Hcat & Hcode &
     Hwf' & Hf').
  exists r', w', env', chunks. split_and!; try done.
  apply (f_equal length) in Hcat. rewrite !length_app in Hcat.
  rewrite length_concat_chunks in Hcat by done.
  destruct Hwf' as [Hb' Hp2 _].
  rewrite !length_buffered, Hp' in Hcat by lia.
  pose proof (Nat.div_mod_eq (writePtr w + length src) BufferSize) as Hdm.
  pose proof BufferSize_pos as HB.
  apply (Nat.mul_cancel_l _ _ BufferSize); lia.
Qed.

(** ** Sessions: many calls on one attached file *)

Lemma wf_clear w : wf w → wf (clear w).
Proof.
  intros [Hb Hp Ht]. split; [done|apply BufferSize_pos|done].
Qed.

(** One writing or flushing call, seen from the file system. *)
Lemma run_op_stream o w env f :
  wf w → file w = Some f → op_defined o → op_writes o →
  ∃ w' env' chunks,
    run_op o w env = Ok (w', env') ∧ wf w' ∧ file w' = Some f ∧
    trace env' = trace env ++ concat (flush_events f <$> chunks) ∧
    Forall (λ d, 0 < length d ≤ BufferSize) chunks ∧
    concat chunks ++ buffered w' = buffered w ++ op_data o.
Proof.
  intros Hwf Hf Hdef Hwr. pose proof Hwf as [Hb Hp Ht].
  destruct o as [f'| | | |source|[s|]]; try done; unfold run_op, op_data.
  - destruct (decide (writePtr w = 0)) as [H0|Hpos].
    + rewrite (flush_empty _ _ f) by done.
      exists w, env, []. cbn [fmap list_fmap concat app].
      rewrite !app_nil_r. by split_and!.
    + rewrite (flush_trace _ _ f) by (done || lia).
      eexists _, _, [buffered w]. split; [done|].
      split_and!; [by apply wf_clear|done| | |].
      * cbn [trace fmap list_fmap concat]. by rewrite app_nil_r.
      * constructor; [|done]. rewrite length_buffered by lia. lia.
      * cbn [concat]. by rewrite !app_nil_r.
  - destruct (write_chunks source w env f Hwf Hf) as
      (r' & w' & env' & chunks & -> & Htr & Hlen & _ & Hcat & _ &
       Hwf' & Hf').
    exists w', env', chunks. split_and!; try done.
    eapply Forall_impl; [exact Hlen|]. intros d ->.
    pose proof BufferSize_pos. cbn beta. lia.
  - destruct Hdef as [n Hn].
    destruct (writeStr_write s n w env Hn) as [-> Hlens].
    destruct (write_chunks (take n s) w env f Hwf Hf) as
      (r' & w' & env' & chunks & -> & Htr & Hlen & _ & Hcat & _ &
       Hwf' & Hf').
    exists w', env', chunks. rewrite Hn. split_and!; try done.
    eapply Forall_impl; [exact Hlen|]. intros d ->.
    pose proof BufferSize_pos. cbn beta. lia.
  - exists w, env, []. cbn [fmap list_fmap concat app].
    rewrite !app_nil_r. by split_and!.
Qed.

Lemma run_ops_stream ops w env f :
  wf w → file w = Some f → Forall op_defined ops → Forall op_writes ops →
  ∃ w' env' chunks,
    run_ops ops w env = Ok (w', env') ∧ wf w' ∧ file w' = Some f ∧
    trace env' = trace env ++ concat (flush_events f <$> chunks) ∧
    Forall (λ d, 0 < length d ≤ BufferSize) chunks ∧
    concat chunks ++ buffered w' = buffered w ++ concat (op_data <$> ops).
Proof.
  intros Hwf Hf Hdef. revert w env Hwf Hf.
  induction Hdef as [|o ops Ho _ IH]; intros w env Hwf Hf Hwr.
  - exists w, env, []. cbn [fmap list_fmap concat app].
    rewrite !app_nil_r. by split_and!.
  - apply Forall_cons in Hwr as [Hwo Hwr].
    destruct (run_op_stream o w env f Hwf Hf Ho Hwo)
      as (w1 & env1 & ch1 & Hrun1 & Hwf1 & Hf1 & Htr1 & Hlen1 & Hcat1).
    destruct (IH w1 env1 Hwf1 Hf1 Hwr)
      as (w' & env' & ch2 & Hrun2 & Hwf' & Hf' & Htr2 & Hlen2 & Hcat2).
    exists w', env', (ch1 ++ ch2). cbn [run_ops]. rewrite Hrun1.
    split_and!; try done.
    + by rewrite Htr2, Htr1, fmap_app, concat_app, app_assoc.
    + by apply Forall_app.
    + rewrite fmap_cons. cbn [concat].
      rewrite concat_app, <- app_assoc, Hcat2, !app_assoc, Hcat1. done.
Qed.

(** What a final [flush] adds to a session. *)
Lemma session_closed w1 env1 f chunks data :
  wf w1 → file w1 = Some f →
  Forall (λ d, 0 < length d ≤ BufferSize) chunks →
  concat chunks ++ buffered w1 = data →
  ∃ chunks',
    trace (flush w1 env1).2 =
      trace env1 ++ concat (flush_events f <$> chunks') ∧
    Forall (λ d, 0 < length d ≤ BufferSize) (chunks ++ chunks') ∧
    concat (chunks ++ chunks') = data ∧
    (flush w1 env1).1.2 = clear w1.
Proof.
  intros Hwf Hf Hlen Hcat. pose proof Hwf as [Hb Hp Ht].
  destruct (decide (writePtr w1 = 0)) as [H0|Hpos].
  - rewrite (flush_empty _ _ f) by done. exists [].
    cbn [fst snd fmap list_fmap concat]. rewrite !app_nil_r.
    split_and!; [done|done| |].
    + rewrite <- Hcat. unfold buffered. rewrite H0. by rewrite app_nil_r.
    + destruct w1. cbn in H0. subst. reflexivity.
  - rewrite (flush_trace _ _ f) by (done || lia). exists [buffered w1].
    cbn [fst snd trace fmap list_fmap concat]. rewrite !app_nil_r.
    split_and!; [done| |by rewrite concat_app; cbn [concat];
                          rewrite app_nil_r|done].
    apply Forall_app. split; [done|]. constructor; [|done].
    rewrite length_buffered by lia. lia.
Qed.

(** X2: any number of [write], [writeStr] and [flush] calls on one
    attached file, closed by a [flush]: the file system has then received, in
    underlying writes of 1 to [BufferSize] bytes each, exactly the bytes
    that were in the buffer at the start followed by the bytes of the
    calls in call order, and the buffer is empty. *)
Theorem session_delivers_every_byte ops w env f :
  wf w → file w = Some f → Forall op_defined ops → Forall op_writes ops →
  ∃ w1 env1 chunks,
    run_ops ops w env = Ok (w1, env1) ∧
    trace (flush w1 env1).2 =
      trace env ++ concat (flush_events f <$> chunks) ∧
    Forall (λ d, 0 < length d ≤ BufferSize) chunks ∧
    concat chunks = buffered w ++ concat (op_data <$> ops) ∧
    bufferCount (flush w1 env1).1.2 = 0.
Proof.
  intros Hwf Hf Hdef Hwr.
  destruct (run_ops_stream ops w env f Hwf Hf Hdef Hwr)
    as (w1 & env1 & ch & Hrun & Hwf1 & Hf1 & Htr & Hlen & Hcat).
  destruct (session_closed w1 env1 f ch _ Hwf1 Hf1 Hlen Hcat)
    as (ch' & Htr' & Hlen' & Hcat' & Hw).
  exists w1, env1, (ch ++ ch'). split_and!; try done.
  - by rewrite Htr', Htr, fmap_app, concat_app, app_assoc.
  - by rewrite Hw.
Qed.

(** X3: the destructor closes a session like a last [flush] does, and lets go
    of the file: after any number of [write], [writeStr] and [flush]
    calls on an attached file, destroying the writer leaves the file
    system with every byte of the session, in order, and the writer with
    no file.  A writer without a file is destroyed without any effect. *)
Theorem destructor_delivers_and_detaches ops w env f :
  wf w → file w = Some f → Forall op_defined ops → Forall op_writes ops →
  ∃ w1 env1 chunks,
    run_ops ops w env = Ok (w1, env1) ∧
    file (BufferedFileWriter_dtor w1 env1).1 = None ∧
    trace (BufferedFileWriter_dtor w1 env1).2 =
      trace env ++ concat (flush_events f <$> chunks) ∧
    Forall (λ d, 0 < length d ≤ BufferSize) chunks ∧
    concat chunks = buffered w ++ concat (op_data <$> ops) ∧
    (∀ w0 env0, file w0 = None →
       BufferedFileWriter_dtor w0 env0 = (w0, env0)).
Proof.
  intros Hwf Hf Hdef Hwr.
  destruct (run_ops_stream ops w env f Hwf Hf Hdef Hwr)
    as (w1 & env1 & ch & Hrun & Hwf1 & Hf1 & Htr & Hlen & Hcat).
  destruct (session_closed w1 env1 f ch _ Hwf1 Hf1 Hlen Hcat)
    as (ch' & Htr' & Hlen' & Hcat' & Hw).
  exists w1, env1, (ch ++ ch').
  assert (Hd : BufferedFileWriter_dtor w1 env1 =
               (set_file None (flush w1 env1).1.2, (flush w1 env1).2)).
  { unfold BufferedFileWriter_dtor. rewrite Hf1.
    by destruct (flush w1 env1) as [[r w2] env2]. }
  rewrite Hd. cbn [fst snd]. split_and!; try done.
  - by rewrite Htr', Htr, fmap_app, concat_app, app_assoc.
  - intros w0 env0 H0. unfold BufferedFileWriter_dtor. by rewrite H0.
Qed.

(** ** A writer without a file *)

(** X8: without a file, [write], [writeStr] and [flush] in any number and
    order do nothing at all: the file system is never called, nothing is
    buffered, and the byte count stands still. *)
Theorem unattached_writer_is_inert ops w env :
  file w = None → Forall op_defined ops → Forall op_writes ops →
  run_ops ops w env = Ok (w, env).
Proof.
  intros Hf Hdef Hwr. induction Hdef as [|o ops Ho _ IH]; [done|].
  apply Forall_cons in Hwr as [Hwo Hwr]. cbn [run_ops].
  assert (Hop : run_op o w env = Ok (w, env)).
  { destruct o as [f'| | | |source|[s|]]; try done; unfold run_op.
    - by rewrite flush_no_file.
    - unfold write. by rewrite Hf.
    - destruct Ho as [n Hn]. unfold writeStr, write. by rewrite Hn, Hf. }
  rewrite Hop. by apply IH.
Qed.

(** ** The byte count across re-attachment *)

Lemma run_op_keeps_file o w env :
  wf w → is_Some (file w) → op_defined o → op_keeps_file o →
  ∃ w' env',
    run_op o w env = Ok (w', env') ∧ wf w' ∧ is_Some (file w') ∧
    bytesWrittenTotal w' =
      to_size_t (bytesWrittenTotal w + Z.of_nat (op_bytes o)).
Proof.
  intros Hwf [f Hf] Hdef Hkeep. pose proof Hwf as [Hb Hp Ht].
  assert (Hsame : bytesWrittenTotal w =
                  to_size_t (bytesWrittenTotal w + Z.of_nat 0))
    by (rewrite Z.add_0_r; symmetry; by apply to_size_t_small).
  destruct o as [[f'|]| | | |source|string]; try done.
  - eexists _, _. split; [done|]. split_and!; [|by exists f'|exact Hsame].
    split; [done|apply BufferSize_pos|done].
  - eexists _, _. split; [done|]. split_and!; [|by exists f|exact Hsame].
    by apply wf_clear.
  - destruct (run_op_writes OpFlush w env f Hwf Hf Hdef I)
      as (w' & env' & Hrun & Hwf' & Hf' & Ht').
    exists w', env'. split_and!; [done|done|by eexists|done].
  - destruct (run_op_writes (OpWrite source) w env f Hwf Hf Hdef I)
      as (w' & env' & Hrun & Hwf' & Hf' & Ht').
    exists w', env'. split_and!; [done|done|by eexists|done].
  - destruct (run_op_writes (OpWriteStr string) w env f Hwf Hf Hdef I)
      as (w' & env' & Hrun & Hwf' & Hf' & Ht').
    exists w', env'. split_and!; [done|done|by eexists|done].
Qed.

(** X9: the byte count does not care which file is attached: across any
    calls that write, flush, clear the buffer or attach another (or the
    same) file, it grows by exactly the bytes passed to [write] and
    [writeStr], also by those a [clear] or a re-attachment threw away. *)
Theorem count_survives_reattachment ops w env :
  wf w → is_Some (file w) →
  Forall op_defined ops → Forall op_keeps_file ops →
  ∃ w' env',
    run_ops ops w env = Ok (w', env') ∧
    is_Some (file w') ∧
    getBytesWrittenTotal w' =
      to_size_t (getBytesWrittenTotal w +
                 Z.of_nat (sum_list (op_bytes <$> ops))).
Proof.
  unfold getBytesWrittenTotal.
  intros Hwf Hf Hdef. revert w env Hwf Hf.
  induction Hdef as [|o ops Ho _ IH]; intros w env Hwf Hf Hk.
  - exists w, env. split_and!; try done. simpl sum_list.
    rewrite Z.add_0_r. symmetry. apply to_size_t_small. by destruct Hwf.
  - apply Forall_cons in Hk as [Hko Hk].
    destruct (run_op_keeps_file o w env Hwf Hf Ho Hko)
      as (w1 & env1 & Hrun & Hwf1 & Hf1 & Ht1).
    destruct (IH w1 env1 Hwf1 Hf1 Hk) as (w' & env' & Hrun' & Hf' & Ht').
    exists w', env'. cbn [run_ops]. rewrite Hrun.
    split_and!; try done.
    rewrite Ht', Ht1, to_size_t_add_l. f_equal.
    rewrite fmap_cons. simpl sum_list. lia.
Qed.

(** ** Bytes that never reach the file *)

(** X4: bytes that are still in the buffer when the buffer is cleared or a
    file is attached are thrown away: a [flush] after [clear] or
    [setFile] issues no underlying write, whichever file is attached
    then.  They stay counted in the byte count all the same. *)
Theorem pending_bytes_are_dropped src w env f :
  wf w → file w = Some f → bufferCount w + length src < BufferSize →
  ∃ w1,
    write src (length src) w env = Ok (0%Z, w1, env) ∧
    buffered w1 = buffered w ++ src ∧
    flush (clear w1) env = (0%Z, clear w1, env) ∧
    (∀ f', flush (setFile (Some f') w1) env =
             (0%Z, setFile (Some f') w1, env)) ∧
    flush (setFile None w1) env = (WriteNoFile, setFile None w1, env) ∧
    (∀ f', getBytesWrittenTotal (setFile f' w1) =
             to_size_t (getBytesWrittenTotal w + Z.of_nat (length src))) ∧
    getBytesWrittenTotal (clear w1) =
      to_size_t (getBytesWrittenTotal w + Z.of_nat (length src)).
Proof.
  unfold bufferCount, getBytesWrittenTotal. intros [Hb Hp Ht] Hf Hroom.
  exists (append_bytes src w).
  assert (Htot : bytesWrittenTotal (append_bytes src w) =
                 to_size_t (bytesWrittenTotal w + Z.of_nat (length src)))
    by (by apply append_bytes_total).
  split_and!.
  - by apply (write_fits _ _ _ f).
  - apply append_bytes_buffered. lia.
  - apply (flush_empty _ _ f); [|done].
    cbn [file clear set_writePtr]. by rewrite append_bytes_file.
  - intros f'. by apply (flush_empty _ _ f').
  - by apply flush_no_file.
  - intros f'. exact Htot.
  - exact Htot.
Qed.

(** ** Flushing twice *)

(** X5: a second [flush] right after a [flush] finds nothing to do: it issues
    no underlying write, changes neither writer nor world, and returns
    [0], or [WriteNoFile] when no file is attached. *)
Theorem flush_twice w env :
  flush (flush w env).1.2 (flush w env).2 =
  (match file w with None => WriteNoFile | Some _ => 0%Z end,
   (flush w env).1.2, (flush w env).2).
Proof.
  destruct (file w) as [f|] eqn:Hf.
  - destruct (decide (writePtr w = 0)) as [H0|Hpos].
    + rewrite (flush_empty w env f) by done. cbn [fst snd].
      by apply (flush_empty _ _ f).
    + rewrite (flush_pending w env f) by (done || lia). cbn [fst snd].
      by apply (flush_empty _ _ f).
  - rewrite (flush_no_file w env) by done. cbn [fst snd].
    by apply flush_no_file.
Qed.

(** ** Strings *)

Lemma strlen_app s1 rest :
  Forall (λ c, c ≠ x00) s1 → strlen (s1 ++ x00 :: rest) = Some (length s1).
Proof.
  induction 1 as [|c s1 Hc _ IH]; [done|].
  cbn [app strlen length]. destruct (Byte.eqb c x00) eqn:E.
  - by apply Byte.byte_dec_bl in E.
  - by rewrite IH.
Qed.

(** X6: [writeStr] writes the bytes before the first NUL of its string and
    nothing else: not the NUL, and nothing of what follows it.  In
    status, buffer, count and underlying writes it is [write] on these
    bytes. *)
Theorem writeStr_stops_at_NUL s1 rest w env :
  Forall (λ c, c ≠ x00) s1 →
  writeStr (Some (s1 ++ x00 :: rest)) w env = write s1 (length s1) w env.
Proof.
  intros Hs1. pose proof (strlen_app s1 rest Hs1) as Hn.
  destruct (writeStr_write _ _ w env Hn) as [-> _].
  by rewrite take_app_length.
Qed.

(** ** A formatting that fails *)

(** A count beyond the readable bytes, with a file attached: the loop
    runs past them, flushes on the way or not. *)
Lemma write_loop_overrun_attached src n r w env f :
  length src < n → file w = Some f → length (buff w) = BufferSize →
  writePtr w < BufferSize →
  write_loop src n r w env = Undefined.
Proof.
  revert n r w env. induction src as [|c src IH]; intros n r w env Hn Hf Hb Hp.
  - destruct n; [cbn [length] in Hn; lia|done].
  - destruct n as [|n]; [lia|]. cbn [length] in Hn.
    assert (Hb1 : length (buff (append_byte c w)) = BufferSize)
      by (cbn [buff append_byte]; by rewrite length_insert).
    destruct (decide (S (writePtr w) < BufferSize)) as [Hroom|Hfull].
    + rewrite write_loop_step_room by done.
      apply IH; [lia|done|done|done].
    + rewrite write_loop_step_full by (done || lia).
      rewrite (flush_pending _ _ f) by (done || cbn [writePtr append_byte]; lia).
      cbn [fst snd]. apply IH; [lia|done|done|apply BufferSize_pos].
Qed.

Lemma length_vsnprintf_error dst n code stored :
  length (vsnprintf dst n (FormatError code stored)).1 = length dst.
Proof.
  cbn [vsnprintf fst]. rewrite length_app, length_take, length_drop. lia.
Qed.

(** When [vsnprintf] fails, its negative result is what [logPrintf] hands
    to [write] as the count, a value near [SIZE_MAX] once converted.  With
    a file attached the loop of [write] then reads past the end of
    [lineBuff]; with no file, [write] refuses before it reads anything,
    and nothing is buffered or counted. *)
Lemma logPrintf_body_format_error code stored w env :
  (file w = None →
   logPrintf_body (Some (FormatError code stored)) w env =
     Ok (set_lineBuff
           (vsnprintf (lineBuff w) LineBuffSize
              (FormatError code stored)).1 w, env)) ∧
  (∀ f, wf w → file w = Some f →
     (Z.of_nat (length (lineBuff w)) + Z.pos code ≤ SIZE_MAX)%Z →
     logPrintf_body (Some (FormatError code stored)) w env = Undefined).
Proof.
  split.
  - intros Hf. unfold logPrintf_body, write. cbn [vsnprintf fst].
    cbn [file set_lineBuff]. by rewrite Hf.
  - intros f [Hb Hp Ht] Hf Hmax. unfold logPrintf_body.
    pose proof (length_vsnprintf_error (lineBuff w) LineBuffSize code stored)
      as Hlen.
    assert (Hret : (vsnprintf (lineBuff w) LineBuffSize
                      (FormatError code stored)).2 = Z.neg code) by done.
    destruct (vsnprintf _ _ _) as [line nChars].
    cbn [fst snd] in Hlen, Hret. subst nChars.
    assert (Hn : to_size_t (Z.neg code) = (SIZE_MAX + 1 - Z.pos code)%Z).
    { unfold to_size_t.
      replace (Z.neg code)
        with (SIZE_MAX + 1 - Z.pos code + (-1) * (SIZE_MAX + 1))%Z by lia.
      rewrite Z_mod_plus_full. apply Z.mod_small. lia. }
    rewrite Hn, (write_attached _ _ _ _ f) by done.
    by rewrite (write_loop_overrun_attached _ _ _ _ _ f) by (done || lia).
Qed.

(** ** Every underlying write, in every program *)

Lemma run_op_unattached o w env :
  file w = None → op_defined o → op_writes o → run_op o w env = Ok (w, env).
Proof.
  intros Hf Ho Hwo.
  destruct o as [f'| | | |source|[s|]]; try done; unfold run_op.
  - by rewrite flush_no_file.
  - unfold write. by rewrite Hf.
  - destruct Ho as [n Hn]. unfold writeStr, write. by rewrite Hn, Hf.
Qed.

Lemma run_op_calls o w env :
  wf w → op_defined o →
  ∃ w' env' calls,
    run_op o w env = Ok (w', env') ∧ wf w' ∧
    trace env' = trace env ++ concat ((λ c, flush_events c.1 c.2) <$> calls) ∧
    Forall (λ c, 0 < length c.2 ≤ BufferSize) calls.
Proof.
  intros Hwf Ho. pose proof Hwf as [Hb Hp Ht].
  assert (Hnone : ∀ w', wf w' → run_op o w env = Ok (w', env) →
    ∃ w' env' calls,
      run_op o w env = Ok (w', env') ∧ wf w' ∧
      trace env' =
        trace env ++ concat ((λ c, flush_events c.1 c.2) <$> calls) ∧
      Forall (λ c, 0 < length c.2 ≤ BufferSize) calls).
  { intros w' Hwf' Hrun. exists w', env, [].
    cbn [fmap list_fmap concat]. rewrite app_nil_r. by split_and!. }
  assert (Hwr : op_writes o →
    ∃ w' env' calls,
      run_op o w env = Ok (w', env') ∧ wf w' ∧
      trace env' =
        trace env ++ concat ((λ c, flush_events c.1 c.2) <$> calls) ∧
      Forall (λ c, 0 < length c.2 ≤ BufferSize) calls).
  { intros Hwo. destruct (file w) as [f|] eqn:Hf.
    - destruct (run_op_stream o w env f Hwf Hf Ho Hwo)
        as (w' & env' & chunks & Hrun & Hwf' & _ & Htr & Hlen & _).
      exists w', env', ((λ d, (f, d)) <$> chunks).
      split_and!; [done|done| |].
      + rewrite Htr. f_equal. f_equal. by rewrite <- list_fmap_compose.
      + apply Forall_fmap. eapply Forall_impl; [exact Hlen|]. done.
    - apply (Hnone w Hwf). by apply run_op_unattached. }
  destruct o as [f'| | | |source|string]; try (by apply Hwr).
  - apply (Hnone (setFile f' w)); [|done].
    split; [done|apply BufferSize_pos|done].
  - apply (Hnone (clear w)); [|done]. by apply wf_clear.
  - apply (Hnone (resetBytesWrittenTotal w)); [|done].
    split; [done|done|]. cbn [bytesWrittenTotal resetBytesWrittenTotal
                              set_bytesWrittenTotal]. lia.
Qed.

Lemma run_ops_calls ops w env :
  wf w → Forall op_defined ops →
  ∃ w' env' calls,
    run_ops ops w env = Ok (w', env') ∧
    trace env' =
      trace env ++ concat ((λ c, flush_events c.1 c.2) <$> calls) ∧
    Forall (λ c, 0 < length c.2 ≤ BufferSize) calls.
Proof.
  intros Hwf Hdef. revert w env Hwf.
  induction Hdef as [|o ops Ho _ IH]; intros w env Hwf.
  - exists w, env, []. cbn [fmap list_fmap concat]. rewrite app_nil_r.
    by split_and!.
  - destruct (run_op_calls o w env Hwf Ho)
      as (w1 & env1 & c1 & Hrun1 & Hwf1 & Htr1 & Hlen1).
    destruct (IH w1 env1 Hwf1) as (w' & env' & c2 & Hrun2 & Htr2 & Hlen2).
    exists w', env', (c1 ++ c2). cbn [run_ops]. rewrite Hrun1.
    split_and!; [done| |by apply Forall_app].
    by rewrite Htr2, Htr1, fmap_app, concat_app, app_assoc.
Qed.

Lemma debug4_after_app t1 t2 pin :
  debug4_after (t1 ++ t2) pin = debug4_after t2 (debug4_after t1 pin).
Proof.
  revert pin. induction t1 as [|[on|d sz n f] t1 IH]; intros pin;
    [done|apply IH|apply IH].
Qed.

(** Underlying writes leave the pin low; none leaves it as it was. *)
Lemma debug4_after_calls (calls : list (FS_FILE * list byte)) pin :
  debug4_after (concat ((λ c, flush_events c.1 c.2) <$> calls)) pin =
  match calls with [] => pin | _ :: _ => false end.
Proof.
  revert pin. induction calls as [|c calls IH]; intros pin; [done|].
  rewrite fmap_cons. cbn [concat]. rewrite debug4_after_app.
  cbn [flush_events debug4_after]. rewrite IH. by destruct calls.
Qed.

(** X10: whatever a client calls, in any order and on any files: every call
    returns, and everything the writer ever does to the outside is a row
    of underlying writes, each of 1 to [BufferSize] bytes passed as one
    item of that size, and each with the debug pin raised just before and
    lowered just after it.  So no empty write is issued; and when the
    calls have returned the pin is low if there was an underlying write,
    and as it was before if there was none: a pin that nobody else raised
    is low whenever a call returns. *)
Theorem every_underlying_write_is_well_formed ops w env :
  wf w → Forall op_defined ops →
  ∃ w' env' calls,
    run_ops ops w env = Ok (w', env') ∧
    trace env' =
      trace env ++ concat ((λ c, flush_events c.1 c.2) <$> calls) ∧
    Forall (λ c, 0 < length c.2 ≤ BufferSize) calls ∧
    (∀ pin, debug4_after (trace env') pin =
            match calls with
            | [] => debug4_after (trace env) pin
            | _ :: _ => false
            end) ∧
    (debug4_state (trace env) = false → debug4_state (trace env') = false).
Proof.
  intros Hwf Hdef.
  destruct (run_ops_calls ops w env Hwf Hdef)
    as (w' & env' & calls & Hrun & Htr & Hlen).
  assert (Hpin : ∀ pin, debug4_after (trace env') pin =
                        match calls with
                        | [] => debug4_after (trace env) pin
                        | _ :: _ => false
                        end).
  { intros pin. rewrite Htr, debug4_after_app. apply debug4_after_calls. }
  exists w', env', calls. split_and!; [exact Hrun|exact Htr|exact Hlen
                                     |exact Hpin|].
  unfold debug4_state. intros Hlow. rewrite Hpin. by destruct calls.
Qed.

End WriterStreams.

(** ** These theorems at concrete inputs *)

Lemma fresh_writer_wf code : wf (fresh_writer code).
Proof.
  split.
  - apply length_replicate.
  - exact (@BufferSize_pos).
  - change (0 ≤ 0 ≤ 4294967295)%Z. lia.
Qed.

(** A full buffer of "A" and one "B" in one write. *)
Lemma write_stream_witness :
  let src := replicate BufferSize x41 ++ [x42] in
  (wf (attached_writer 1) ∧ file (attached_writer 1) = Some tt) ∧
  ∃ r' w' env' chunks,
    write src (length src) (attached_writer 1) (empty_world 1) =
      Ok (r', w', env') ∧
    Forall (λ d, length d = BufferSize) chunks ∧
    concat chunks ++ buffered w' = src.
Proof.
  intros src. clearbody src.
  assert (H1 : wf (attached_writer 1)) by apply attached_writer_wf.
  assert (H2 : file (attached_writer 1) = Some tt) by reflexivity.
  split; [by split|].
  destruct (write_stream (H:=constant_platform 1) src (attached_writer 1)
              (empty_world 1) tt H1 H2)
    as (r' & w' & env' & chunks & Hrun & _ & Hlen & _ & _ & Hcat & _).
  exists r', w', env', chunks. split_and!; [exact Hrun|exact Hlen|exact Hcat].
Defined.

(** Two bytes, a flush, a string, and the closing flush. *)
Lemma session_delivers_every_byte_witness :
  let ops := [OpWrite [x41; x42]; OpFlush; OpWriteStr (Some [x43; x00])] in
  (wf (attached_writer 1) ∧ file (attached_writer 1) = Some tt ∧
   Forall op_defined ops ∧ Forall op_writes ops) ∧
  ∃ w1 env1 chunks,
    run_ops ops (attached_writer 1) (empty_world 1) = Ok (w1, env1) ∧
    trace (flush w1 env1).2 = concat (flush_events (H:=constant_platform 1) tt <$> chunks) ∧
    concat chunks = [x41; x42; x43] ∧
    bufferCount (flush w1 env1).1.2 = 0.
Proof.
  intros ops.
  assert (H1 : wf (attached_writer 1)) by apply attached_writer_wf.
  assert (H2 : file (attached_writer 1) = Some tt) by reflexivity.
  assert (H3 : Forall op_defined ops).
  { repeat constructor. by exists 1. }
  assert (H4 : Forall op_writes ops) by repeat constructor.
  split; [by split_and!|].
  destruct (session_delivers_every_byte (H:=constant_platform 1) ops
              (attached_writer 1) (empty_world 1) tt H1 H2 H3 H4)
    as (w1 & env1 & chunks & Hrun & Htr & _ & Hcat & Hcount).
  exists w1, env1, chunks.
  split_and!; [exact Hrun|exact Htr|exact Hcat|exact Hcount].
Defined.

(** The same session, closed by the destructor. *)
Lemma destructor_delivers_and_detaches_witness :
  let ops := [OpWrite [x41; x42]; OpFlush; OpWriteStr (Some [x43; x00])] in
  (wf (attached_writer 1) ∧ file (attached_writer 1) = Some tt ∧
   Forall op_defined ops ∧ Forall op_writes ops) ∧
  ∃ w1 env1 chunks,
    run_ops ops (attached_writer 1) (empty_world 1) = Ok (w1, env1) ∧
    file (BufferedFileWriter_dtor w1 env1).1 = None ∧
    trace (BufferedFileWriter_dtor w1 env1).2 =
      concat (flush_events (H:=constant_platform 1) tt <$> chunks) ∧
    concat chunks = [x41; x42; x43].
Proof.
  intros ops.
  assert (H1 : wf (attached_writer 1)) by apply attached_writer_wf.
  assert (H2 : file (attached_writer 1) = Some tt) by reflexivity.
  assert (H3 : Forall op_defined ops).
  { repeat constructor. by exists 1. }
  assert (H4 : Forall op_writes ops) by repeat constructor.
  split; [by split_and!|].
  destruct (destructor_delivers_and_detaches (H:=constant_platform 1) ops
              (attached_writer 1) (empty_world 1) tt H1 H2 H3 H4)
    as (w1 & env1 & chunks & Hrun & Hfile & Htr & _ & Hcat & _).
  exists w1, env1, chunks.
  split_and!; [exact Hrun|exact Hfile|exact Htr|exact Hcat].
Defined.

(** The same calls on a writer that was never given a file. *)
Lemma unattached_writer_is_inert_witness :
  let ops := [OpWrite [x41; x42]; OpFlush; OpWriteStr (Some [x43; x00])] in
  (file (fresh_writer 1) = None ∧
   Forall (op_defined (H:=constant_platform 1)) ops ∧
   Forall (op_writes (H:=constant_platform 1)) ops) ∧
  run_ops ops (fresh_writer 1) (empty_world 1) =
    Ok (fresh_writer 1, empty_world 1).
Proof.
  intros ops.
  assert (H1 : file (fresh_writer 1) = None) by reflexivity.
  assert (H3 : Forall (op_defined (H:=constant_platform 1)) ops).
  { repeat constructor. by exists 1. }
  assert (H4 : Forall (op_writes (H:=constant_platform 1)) ops)
    by repeat constructor.
  split; [by split_and!|].
  apply (unattached_writer_is_inert (H:=constant_platform 1) ops
           (fresh_writer 1) (empty_world 1) H1 H3 H4).
Defined.

(** Two bytes, the file attached again, a clear, and a string: three
    bytes counted. *)
Lemma count_survives_reattachment_witness :
  let ops := [OpWrite [x41; x42]; OpSetFile (H:=constant_platform 1)
                (Some tt); OpClear; OpWriteStr (Some [x43; x00])] in
  (wf (attached_writer 1) ∧ is_Some (file (attached_writer 1)) ∧
   Forall op_defined ops ∧ Forall op_keeps_file ops) ∧
  ∃ w' env',
    run_ops ops (attached_writer 1) (empty_world 1) = Ok (w', env') ∧
    getBytesWrittenTotal w' = 3%Z.
Proof.
  intros ops.
  assert (H1 : wf (attached_writer 1)) by apply attached_writer_wf.
  assert (H2 : is_Some (file (attached_writer 1))) by (by exists tt).
  assert (H3 : Forall op_defined ops).
  { repeat constructor. by exists 1. }
  assert (H4 : Forall op_keeps_file ops) by repeat constructor.
  split; [by split_and!|].
  destruct (count_survives_reattachment (H:=constant_platform 1) ops
              (attached_writer 1) (empty_world 1) H1 H2 H3 H4)
    as (w' & env' & Hrun & _ & Htot).
  exists w', env'. split; [exact Hrun|exact Htot].
Defined.

(** One byte written and then dropped. *)
Lemma pending_bytes_are_dropped_witness :
  (wf (attached_writer 1) ∧ file (attached_writer 1) = Some tt ∧
   bufferCount (attached_writer 1) + length [x41] < BufferSize) ∧
  ∃ w1,
    write [x41] 1 (attached_writer 1) (empty_world 1) =
      Ok (0%Z, w1, empty_world 1) ∧
    buffered w1 = [x41] ∧
    flush (clear w1) (empty_world 1) = (0%Z, clear w1, empty_world 1) ∧
    flush (setFile (H:=constant_platform 1) (Some tt) w1) (empty_world 1) =
      (0%Z, setFile (H:=constant_platform 1) (Some tt) w1, empty_world 1) ∧
    getBytesWrittenTotal (clear w1) = 1%Z.
Proof.
  assert (H1 : wf (attached_writer 1)) by apply attached_writer_wf.
  assert (H2 : file (attached_writer 1) = Some tt) by reflexivity.
  assert (H3 : bufferCount (attached_writer 1) + length [x41] < BufferSize)
    by (unfold BufferSize; cbn [length]; change (0 + 1 < 4096); lia).
  split; [by split_and!|].
  destruct (pending_bytes_are_dropped (H:=constant_platform 1) [x41]
              (attached_writer 1) (empty_world 1) tt H1 H2 H3)
    as (w1 & Hrun & Hbuf & Hclear & Hset & _ & _ & Hcount).
  exists w1.
  split_and!; [exact Hrun|exact Hbuf|exact Hclear|apply Hset|exact Hcount].
Defined.

(** "AB", its NUL, and a byte behind the NUL. *)
Lemma writeStr_stops_at_NUL_witness :
  Forall (λ c, c ≠ x00) [x41; x42] ∧
  writeStr (Some ([x41; x42] ++ x00 :: [x43]))
    (attached_writer 1) (empty_world 1) =
  write [x41; x42] 2 (attached_writer 1) (empty_world 1).
Proof.
  assert (H1 : Forall (λ c, c ≠ x00) [x41; x42])
    by (repeat constructor; discriminate).
  split; [exact H1|].
  apply (writeStr_stops_at_NUL (H:=constant_platform 1) [x41; x42] [x43]
           (attached_writer 1) (empty_world 1) H1).
Defined.

(** A client that writes before attaching, attaches, fills the buffer,
    detaches and writes again. *)
Lemma every_underlying_write_is_well_formed_witness :
  let ops := [OpWrite [x41]; OpSetFile (H:=constant_platform 1) (Some tt);
              OpWrite (replicate BufferSize x41); OpSetFile None;
              OpWriteStr (Some [x42; x00]); OpResetBytesWrittenTotal] in
  (wf (fresh_writer 1) ∧ Forall op_defined ops) ∧
  ∃ w' env' calls,
    run_ops ops (fresh_writer 1) (empty_world 1) = Ok (w', env') ∧
    trace env' = concat ((λ c, flush_events c.1 c.2) <$> calls) ∧
    Forall (λ c, 0 < length c.2 ≤ BufferSize) calls ∧
    debug4_state (trace env') = false.
Proof.
  intros ops.
  assert (H1 : wf (fresh_writer 1)) by apply fresh_writer_wf.
  assert (H2 : Forall op_defined ops).
  { repeat constructor. by exists 1. }
  split; [by split|]. clearbody ops.
  destruct (every_underlying_write_is_well_formed (H:=constant_platform 1)
              ops (fresh_writer 1) (empty_world 1) H1 H2)
    as (w' & env' & calls & Hrun & Htr & Hlen & _ & Hlow).
  exists w', env', calls.
  split_and!; [exact Hrun|exact Htr|exact Hlen|apply Hlow; reflexivity].
Defined.
